(** * Solibri MCP server: Autorun script builder, process supervisor,
      asset listing, REST polling and the follow-up endpoint.

    A shallow embedding of [autorun.js] (generateXml, escapeXml,
    executeAutorun, listAssets), of [rest-client.js] (isBusy,
    waitUntilIdle) and of the transport part of [index.js]
    (authenticate, the /sse registry and POST /messages). *)

From Stdlib Require Import ZArith List String Ascii Bool Lia.
From Stdlib Require Import Numbers.DecimalString.
Import ListNotations.

Open Scope string_scope.
Open Scope Z_scope.

(* ===================================================================== *)
(** ** JavaScript values and completions                                  *)
(* ===================================================================== *)

(** The values a command field can hold.  Strings are sequences of code
    units.  [JNum n] stands for the number [n] where a double holds it
    exactly and prints it in full, the safe integers of magnitude up to
    2^53 - 1; a [JNum] outside that range, like a fraction, stands for no
    value of the program, and what is proved of a printed number assumes
    the range ([safe_integer]). *)
Inductive jsval : Type :=
| JUndefined
| JNull
| JBool (b : bool)
| JNum (n : Z)
| JStr (s : string).

(** ToBoolean: what [if (v)] and [!v] test. *)
Definition truthy (v : jsval) : bool :=
  match v with
  | JUndefined | JNull => false
  | JBool b => b
  | JNum n => negb (n =? 0)
  | JStr s => negb (String.eqb s "")
  end.

Definition Z_to_string (n : Z) : string :=
  NilEmpty.string_of_int (Z.to_int n).

(** ToString: what a template literal [`${v}`] interpolates; for a
    number, the decimal notation of a safe integer. *)
Definition js_to_string (v : jsval) : string :=
  match v with
  | JUndefined => "undefined"
  | JNull => "null"
  | JBool true => "true"
  | JBool false => "false"
  | JNum n => Z_to_string n
  | JStr s => s
  end.

Inductive js_error : Type :=
| TypeError (msg : string)
| Error (msg : string).

(** A call either returns or throws. *)
Inductive completion (A : Type) : Type :=
| Return (a : A)
| Throw (e : js_error).
Arguments Return {A} a.
Arguments Throw {A} e.

Definition bind {A B : Type} (c : completion A) (k : A -> completion B)
  : completion B :=
  match c with
  | Return a => k a
  | Throw e => Throw e
  end.

Notation "'let!' x ':=' c 'in' k" := (bind c (fun x => k))
  (at level 10, x name, c at level 100, k at level 200).

(* ===================================================================== *)
(** ** autorun.js: escapeXml and generateXml                              *)
(* ===================================================================== *)

(** [s.replace(/c/g, r)] for a one-character pattern. *)
Fixpoint replace_all (c : ascii) (r : string) (s : string) : string :=
  match s with
  | EmptyString => EmptyString
  | String a rest =>
      if Ascii.eqb a c then r ++ replace_all c r rest
      else String a (replace_all c r rest)
  end.

Definition amp : ascii := "&"%char.
Definition lt : ascii := "<"%char.
Definition gt : ascii := ">"%char.
Definition quot : ascii := "034"%char.
Definition apos : ascii := "'"%char.

(** A double quote, and a value between double quotes as the template
    literals write it. *)
Definition dq : string := String quot EmptyString.
Definition quoted (s : string) : string := dq ++ s ++ dq.

(** The chain of five replacements on a string. *)
Definition escape_chain (s : string) : string :=
  replace_all apos "&apos;"
    (replace_all quot "&quot;"
      (replace_all gt "&gt;"
        (replace_all lt "&lt;"
          (replace_all amp "&amp;" s)))).

(** [escapeXml(str)]: a falsy argument gives the empty string; a truthy
    argument that is not a string has no [replace] method. *)
Definition escapeXml (str : jsval) : completion string :=
  if negb (truthy str) then Return ""
  else match str with
       | JStr s => Return (escape_chain s)
       | _ => Throw (TypeError "str.replace is not a function")
       end.

(** A command object: the fields generateXml reads. *)
Record command : Type := mkCommand {
  type : jsval;
  file : jsval;
  name : jsval;
  templatefile : jsval;
  title : jsval;
  version : jsval;
  snapshots : jsval
}.

(** An object literal that sets only [type]. *)
Definition cmd_of_type (t : string) : command :=
  mkCommand (JStr t) JUndefined JUndefined JUndefined JUndefined
            JUndefined JUndefined.

Definition with_file (f : jsval) (c : command) : command :=
  mkCommand (type c) f (name c) (templatefile c) (title c) (version c)
            (snapshots c).
Definition with_name (n : jsval) (c : command) : command :=
  mkCommand (type c) (file c) n (templatefile c) (title c) (version c)
            (snapshots c).
Definition with_templatefile (t : jsval) (c : command) : command :=
  mkCommand (type c) (file c) (name c) t (title c) (version c)
            (snapshots c).
Definition with_title (t : jsval) (c : command) : command :=
  mkCommand (type c) (file c) (name c) (templatefile c) t (version c)
            (snapshots c).
Definition with_version (v : jsval) (c : command) : command :=
  mkCommand (type c) (file c) (name c) (templatefile c) (title c) v
            (snapshots c).
Definition with_snapshots (v : jsval) (c : command) : command :=
  mkCommand (type c) (file c) (name c) (templatefile c) (title c)
            (version c) v.

(** The [switch (cmd.type)] compares with [===]: only a string equal to
    the label takes a case. *)
Definition is_type (c : command) (label : string) : bool :=
  match type c with
  | JStr t => String.eqb t label
  | _ => false
  end.

(** The one-attribute commands: an element [tag] whose [file] attribute
    is [escapeXml(cmd.file)]. *)
Definition file_element (tag : string) (c : command) : completion string :=
  let! f := escapeXml (file c) in
  Return ("  <" ++ tag ++ " file=" ++ quoted f ++ " />").

(** What one iteration of the loop pushes onto [lines]: [Some line], or
    [None] for the default case, which only warns. *)
Definition render_command (c : command) : completion (option string) :=
  if is_type c "openmodel" then
    let! l := file_element "openmodel" c in Return (Some l)
  else if is_type c "updatemodel" then
    let! l := file_element "updatemodel" c in Return (Some l)
  else if is_type c "savemodel" then
    let! l := file_element "savemodel" c in Return (Some l)
  else if is_type c "openclassification" then
    let! l := file_element "openclassification" c in Return (Some l)
  else if is_type c "openruleset" then
    let! l := file_element "openruleset" c in Return (Some l)
  else if is_type c "openito" then
    let! l := file_element "openito" c in Return (Some l)
  else if is_type c "check" then
    Return (Some "  <check />")
  else if is_type c "takeoff" then
    if truthy (name c) then
      let! n := escapeXml (name c) in
      Return (Some ("  <takeoff name=" ++ quoted n ++ " />"))
    else Return (Some "  <takeoff />")
  else if is_type c "itoreport" then
    let! f := escapeXml (file c) in
    let itoReportAttrs := "file=" ++ quoted f in
    let! itoReportAttrs :=
      (if truthy (templatefile c) then
         let! t := escapeXml (templatefile c) in
         Return (itoReportAttrs ++ " templatefile=" ++ quoted t)
       else Return itoReportAttrs) in
    let! itoReportAttrs :=
      (if truthy (title c) then
         let! t := escapeXml (title c) in
         Return (itoReportAttrs ++ " title=" ++ quoted t)
       else Return itoReportAttrs) in
    let! itoReportAttrs :=
      (if truthy (name c) then
         let! n := escapeXml (name c) in
         Return (itoReportAttrs ++ " name=" ++ quoted n)
       else Return itoReportAttrs) in
    Return (Some ("  <itoreport " ++ itoReportAttrs ++ " />"))
  else if is_type c "bcfreport" then
    let! f := escapeXml (file c) in
    let bcfAttrs := "file=" ++ quoted f in
    let bcfAttrs :=
      if truthy (version c)
      then bcfAttrs ++ " version=" ++ quoted (js_to_string (version c))
      else bcfAttrs in
    Return (Some ("  <bcfreport " ++ bcfAttrs ++ " />"))
  else if is_type c "createpresentation" then
    Return (Some "  <createpresentation />")
  else if is_type c "updatepresentation" then
    Return (Some "  <updatepresentation />")
  else if is_type c "autocomment" then
    let acAttrs :=
      match snapshots c with
      | JUndefined => ""
      | v => " snapshots=" ++ quoted (js_to_string v)
      end in
    Return (Some ("  <autocomment" ++ acAttrs ++ " />"))
  else if is_type c "autoupdatemodels" then
    Return (Some "  <autoupdatemodels />")
  else if is_type c "exit" then
    Return (Some "  <exit />")
  else Return None.

(** The [for ... of] loop: the lines pushed, in order. *)
Fixpoint render_commands (commands : list command)
  : completion (list string) :=
  match commands with
  | [] => Return []
  | c :: rest =>
      let! l := render_command c in
      let! ls := render_commands rest in
      Return (match l with Some x => x :: ls | None => ls end)
  end.

Definition nl : string := String (ascii_of_nat 10) EmptyString.

(** [lines.join('\n')]. *)
Definition join_lines (lines : list string) : string :=
  String.concat nl lines.

Definition xml_header : string :=
  "<?xml version=" ++ quoted "1.0" ++ " encoding=" ++ quoted "UTF-8" ++ "?>".

Definition generateXml (commands : list command) : completion string :=
  let! body := render_commands commands in
  Return (join_lines ([xml_header; "<autorun>"] ++ body ++ ["</autorun>"])).

(* ===================================================================== *)
(** ** config.js                                                          *)
(* ===================================================================== *)

(** The configuration values the modelled functions read. *)
Record config : Type := mkConfig {
  authToken : string;            (* SSE.authToken *)
  exePath : string;              (* SOLIBRI.exePath *)
  restApiPort : Z;               (* SOLIBRI.restApiPort *)
  autorunDir : string;           (* SOLIBRI.autorunDir *)
  outputDir : string;            (* SOLIBRI.outputDir *)
  classificationsDir : string;   (* SOLIBRI.classificationsDir *)
  rulesetsDir : string;          (* SOLIBRI.rulesetsDir *)
  itoDir : string;               (* SOLIBRI.itoDir *)
  templatesDir : string;         (* SOLIBRI.templatesDir *)
  timeout : Z;                   (* AUTORUN.timeout *)
  keepXmlFiles : bool            (* AUTORUN.keepXmlFiles *)
}.

(* ===================================================================== *)
(** ** autorun.js: executeAutorun                                         *)
(* ===================================================================== *)

(** The value the promise resolves with. *)
Record job_result : Type := mkResult {
  jobId : string;
  success : bool;
  code : Z;
  res_stdout : string;
  res_stderr : string
}.

(** A call of [resolve] or of [reject]. *)
Inductive settlement : Type :=
| Resolved (r : job_result)
| Rejected (e : js_error).

Inductive timer_state : Type := TimerArmed | TimerCleared | TimerFired.

Inductive signal : Type := SIGTERM.

(** The state the callbacks of one [executeAutorun] call share: the two
    capture buffers, the timer, the signals sent with [proc.kill], the
    promise, every call of [resolve]/[reject] in order, and whether the
    script file is on disk. *)
Record job : Type := mkJob {
  job_id : string;
  xml_path : string;
  stdout : string;
  stderr : string;
  timer : timer_state;
  signals : list signal;
  promise : option settlement;
  calls : list settlement;
  script_on_disk : bool
}.

(** What the event loop can deliver to the callbacks.  [ProcClose] carries
    the exit code ([None] is JavaScript's null, a process ended by a
    signal) and whether [fs.unlinkSync] would throw at that moment. *)
Inductive event : Type :=
| StdoutData (chunk : string)
| StderrData (chunk : string)
| TimerExpires
| ProcClose (exit_code : option Z) (unlink_throws : bool)
| ProcError (message : string).

Definition set_stdout (s : string) (j : job) : job :=
  mkJob (job_id j) (xml_path j) s (stderr j) (timer j) (signals j)
        (promise j) (calls j) (script_on_disk j).
Definition set_stderr (s : string) (j : job) : job :=
  mkJob (job_id j) (xml_path j) (stdout j) s (timer j) (signals j)
        (promise j) (calls j) (script_on_disk j).
Definition set_timer (t : timer_state) (j : job) : job :=
  mkJob (job_id j) (xml_path j) (stdout j) (stderr j) t (signals j)
        (promise j) (calls j) (script_on_disk j).
Definition set_script_on_disk (b : bool) (j : job) : job :=
  mkJob (job_id j) (xml_path j) (stdout j) (stderr j) (timer j) (signals j)
        (promise j) (calls j) b.

(** [proc.kill(sig)]. *)
Definition kill (sg : signal) (j : job) : job :=
  mkJob (job_id j) (xml_path j) (stdout j) (stderr j) (timer j)
        (signals j ++ [sg]) (promise j) (calls j) (script_on_disk j).

(** [resolve(v)] and [reject(e)] of a Promise executor: the first call
    settles the promise, a call on a settled promise does nothing. *)
Definition settle (s : settlement) (j : job) : job :=
  mkJob (job_id j) (xml_path j) (stdout j) (stderr j) (timer j) (signals j)
        (match promise j with None => Some s | Some old => Some old end)
        (calls j ++ [s]) (script_on_disk j).
Definition resolve (r : job_result) : job -> job := settle (Resolved r).
Definition reject (e : js_error) : job -> job := settle (Rejected e).

(** [clearTimeout(timeout)]: disarms a pending timer, nothing otherwise. *)
Definition clearTimeout (j : job) : job :=
  match timer j with
  | TimerArmed => set_timer TimerCleared j
  | _ => j
  end.

(** [fs.unlinkSync(path)] on the script file: throws when the file system
    refuses or the file is not there, removes the file otherwise. *)
Definition unlinkSync (throws : bool) (j : job) : completion job :=
  if throws || negb (script_on_disk j)
  then Throw (Error "unlink failed")
  else Return (set_script_on_disk false j).

(** [`${code}`] for an exit code. *)
Definition code_to_string (c : option Z) : string :=
  match c with
  | Some n => Z_to_string n
  | None => "null"
  end.

(** [a || b] on strings. *)
Definition str_or (a b : string) : string :=
  if String.eqb a "" then b else a.

Definition timeout_error (cfg : config) : js_error :=
  Error ("Autorun timed out after " ++ Z_to_string (timeout cfg) ++ "ms").

Definition exit_error (c : option Z) (j : job) : js_error :=
  Error ("Autorun exited with code " ++ code_to_string c ++ ": "
         ++ str_or (stderr j) (stdout j)).

Definition start_error (message : string) : js_error :=
  Error ("Failed to start Solibri: " ++ message).

Section ExecuteAutorun.
Variable path_join : string -> string -> string.
Variable cfg : config.

(** The [setTimeout] callback.  The runtime runs it only while the timer
    is armed, and once. *)
Definition on_timeout (j : job) : job :=
  match timer j with
  | TimerArmed =>
      reject (timeout_error cfg) (kill SIGTERM (set_timer TimerFired j))
  | _ => j
  end.

(** The [proc.on('close')] callback. *)
Definition on_close (c : option Z) (unlink_throws : bool) (j : job) : job :=
  let j := clearTimeout j in
  let j :=
    if negb (keepXmlFiles cfg) then
      match unlinkSync unlink_throws j with
      | Return j' => j'
      | Throw _ => j                  (* catch (e) {} *)
      end
    else j in
  match c with
  | Some 0 =>
      resolve (mkResult (job_id j) true 0 (stdout j) (stderr j)) j
  | _ => reject (exit_error c j) j
  end.

(** The [proc.on('error')] callback. *)
Definition on_error (message : string) (j : job) : job :=
  reject (start_error message) (clearTimeout j).

Definition handle (e : event) (j : job) : job :=
  match e with
  | StdoutData chunk => set_stdout (stdout j ++ chunk) j
  | StderrData chunk => set_stderr (stderr j ++ chunk) j
  | TimerExpires => on_timeout j
  | ProcClose c unlink_throws => on_close c unlink_throws j
  | ProcError message => on_error message j
  end.

Fixpoint run (es : list event) (j : job) : job :=
  match es with
  | [] => j
  | e :: rest => run rest (handle e j)
  end.

(** The arguments of [spawn]. *)
Definition spawn_args (xmlPath : string) (enableRestApi : bool)
  : list string :=
  ["--autorun"; xmlPath]
  ++ (if enableRestApi
      then ["--rest-api-server-port=" ++ Z_to_string (restApiPort cfg);
            "--rest-api-server-http"]
      else []).

(** The synchronous part of [executeAutorun], up to the end of the
    Promise executor: the job id is the uuid drawn, the script is
    rendered and written, the process is spawned and the timer armed.
    A throw of generateXml or of [fs.writeFileSync] rejects the async
    function before anything is spawned. *)
Definition launch (uuid : string) (commands : list command)
           (write_throws : bool) : completion job :=
  let xmlPath := path_join (autorunDir cfg) (uuid ++ ".xml") in
  let! xml := generateXml commands in
  if write_throws then Throw (Error "write failed")
  else Return (mkJob uuid xmlPath "" "" TimerArmed [] None [] true).

(** The state of the promise [executeAutorun] returned, once the event
    loop has delivered [es]: [None] while pending. *)
Definition executeAutorun (uuid : string) (commands : list command)
           (write_throws : bool) (es : list event)
  : option settlement :=
  match launch uuid commands write_throws with
  | Throw e => Some (Rejected e)
  | Return j => promise (run es j)
  end.
End ExecuteAutorun.

(** Events that only feed the capture buffers. *)
Definition is_data (e : event) : bool :=
  match e with
  | StdoutData _ | StderrData _ => true
  | _ => false
  end.

(** The text captured from one stream by a sequence of events. *)
Fixpoint captured_stdout (es : list event) : string :=
  match es with
  | [] => ""
  | StdoutData chunk :: rest => chunk ++ captured_stdout rest
  | _ :: rest => captured_stdout rest
  end.
Fixpoint captured_stderr (es : list event) : string :=
  match es with
  | [] => ""
  | StderrData chunk :: rest => chunk ++ captured_stderr rest
  | _ :: rest => captured_stderr rest
  end.

(* ===================================================================== *)
(** ** autorun.js: listAssets                                             *)
(* ===================================================================== *)

(** The part of the file system listAssets looks at. *)
Inductive fs_node : Type :=
| FsFile
| FsDir (entries : list string).

Definition filesystem : Type := string -> option fs_node.

Definition existsSync (fs : filesystem) (p : string) : bool :=
  match fs p with
  | Some _ => true
  | None => false
  end.

Definition readdirSync (fs : filesystem) (p : string)
  : completion (list string) :=
  match fs p with
  | Some (FsDir entries) => Return entries
  | Some FsFile => Throw (Error "ENOTDIR: not a directory, scandir")
  | None => Throw (Error "ENOENT: no such file or directory, scandir")
  end.

(** What reading a property of an object literal gives: an own property,
    a member inherited from Object.prototype, or undefined. *)
Inductive property (A : Type) : Type :=
| Own (v : A)
| Inherited
| Missing.
Arguments Own {A} v.
Arguments Inherited {A}.
Arguments Missing {A}.

Definition object_prototype_keys : list string :=
  ["constructor"; "hasOwnProperty"; "isPrototypeOf"; "propertyIsEnumerable";
   "toLocaleString"; "toString"; "valueOf"; "__proto__";
   "__defineGetter__"; "__defineSetter__"; "__lookupGetter__";
   "__lookupSetter__"].

Definition inherited_or_missing {A : Type} (key : string) : property A :=
  if existsb (String.eqb key) object_prototype_keys
  then Inherited else Missing.

(** [dirs[type]]. *)
Definition dirs (cfg : config) (ty : string) : property string :=
  if String.eqb ty "classifications" then Own (classificationsDir cfg)
  else if String.eqb ty "rulesets" then Own (rulesetsDir cfg)
  else if String.eqb ty "ito" then Own (itoDir cfg)
  else if String.eqb ty "templates" then Own (templatesDir cfg)
  else inherited_or_missing ty.

(** [extensions[type]]. *)
Definition extensions (ty : string) : property (list string) :=
  if String.eqb ty "classifications" then Own [".classification"]
  else if String.eqb ty "rulesets" then Own [".cset"]
  else if String.eqb ty "ito" then Own [".ito"]
  else if String.eqb ty "templates" then Own [".xlsx"; ".xls"]
  else inherited_or_missing ty.

(** [toLowerCase] on the code units A to Z; the other code units of a
    name are left as they are. *)
Definition lower_char (a : ascii) : ascii :=
  let n := nat_of_ascii a in
  if ((65 <=? n) && (n <=? 90))%nat then ascii_of_nat (n + 32) else a.

Fixpoint toLowerCase (s : string) : string :=
  match s with
  | EmptyString => EmptyString
  | String a rest => String (lower_char a) (toLowerCase rest)
  end.

(** [s.endsWith(suffix)]. *)
Definition endsWith (s suffix : string) : bool :=
  let n := String.length s in
  let m := String.length suffix in
  ((m <=? n)%nat && String.eqb (substring (n - m) m s) suffix)%bool.

Record asset : Type := mkAsset {
  asset_name : string;
  asset_path : string
}.

Section ListAssets.
Variable path_join : string -> string -> string.
Variable cfg : config.
Variable fs : filesystem.

Definition listAssets (ty : string) : completion (list asset) :=
  match dirs cfg ty with
  | Missing => Return []                       (* !dir *)
  | Inherited => Return []   (* existsSync of a non-path is false *)
  | Own dir =>
      if String.eqb dir "" || negb (existsSync fs dir) then Return []
      else
        let exts :=
          match extensions ty with
          | Own l => l
          | _ => []
          end in
        let! files := readdirSync fs dir in
        Return
          (map (fun f => mkAsset f (path_join dir f))
             (filter
                (fun f => existsb (fun ext => endsWith (toLowerCase f) ext)
                                  exts)
                files))
  end.
End ListAssets.

(* ===================================================================== *)
(** ** rest-client.js: isBusy and waitUntilIdle                           *)
(* ===================================================================== *)

(** What [await status()] gives: a parsed JSON object with its [busy]
    member, a JSON null, a text body, or a throw of [request]. *)
Inductive status_reply : Type :=
| ReplyObject (busy : jsval)
| ReplyNull
| ReplyText (body : string)
| ReplyFails (e : js_error).

(** [isBusy]: [s.busy === true]. *)
Definition isBusy (r : status_reply) : completion bool :=
  match r with
  | ReplyObject (JBool true) => Return true
  | ReplyObject _ => Return false
  | ReplyText _ => Return false
  | ReplyNull => Throw (TypeError "Cannot read properties of null")
  | ReplyFails e => Throw e
  end.

(** One round of the loop as the environment decides it: the reply of the
    status call, the milliseconds the call takes, and the milliseconds by
    which the timer of the pause fires late. *)
Record round : Type := mkRound {
  reply : status_reply;
  latency : N;
  lateness : N
}.

(** The delay [setTimeout] uses: a delay below 1 or above 2^31-1 is 1. *)
Definition timer_delay (ms : Z) : Z :=
  if (ms <? 1) || (2147483647 <? ms) then 1 else ms.

Definition idle_timeout_error (timeoutMs : Z) : js_error :=
  Error ("Solibri did not become idle within " ++ Z_to_string timeoutMs
         ++ "ms").

(** How a call ended: its completion, the number of status polls made,
    the delays passed to [setTimeout] in order, and [Date.now()] at the
    end. *)
Record wait_outcome : Type := mkOutcome {
  wait_result : completion bool;
  polls : nat;
  sleeps : list Z;
  finished_at : Z
}.

Section WaitUntilIdle.
Variable world : nat -> round.
Variables timeoutMs pollIntervalMs : Z.
Variable start : Z.                      (* const start = Date.now() *)

(** The [while] loop; [i] counts the polls made, [now] is the clock at
    the test of the condition. *)
Fixpoint wait_loop (fuel : nat) (i : nat) (now : Z) (slept : list Z)
  : option wait_outcome :=
  match fuel with
  | O => None
  | S fuel' =>
      if now - start <? timeoutMs then
        let r := world i in
        let now1 := now + Z.of_N (latency r) in
        match isBusy (reply r) with
        | Throw e => Some (mkOutcome (Throw e) (S i) slept now1)
        | Return false => Some (mkOutcome (Return true) (S i) slept now1)
        | Return true =>
            wait_loop fuel' (S i)
              (now1 + timer_delay pollIntervalMs + Z.of_N (lateness r))
              (slept ++ [pollIntervalMs])
        end
      else Some (mkOutcome (Throw (idle_timeout_error timeoutMs)) i slept
                           now)
  end.

Definition waitUntilIdle_from (fuel : nat) : option wait_outcome :=
  wait_loop fuel 0%nat start [].
End WaitUntilIdle.

(** The default parameters: [timeoutMs = 60000, pollIntervalMs = 1000]. *)
Definition waitUntilIdle (world : nat -> round)
           (timeoutMs pollIntervalMs : option Z) (start : Z) (fuel : nat)
  : option wait_outcome :=
  waitUntilIdle_from world
    (match timeoutMs with Some t => t | None => 60000 end)
    (match pollIntervalMs with Some p => p | None => 1000 end)
    start fuel.

(* ===================================================================== *)
(** ** index.js: authenticate, the transport registry, POST /messages     *)
(* ===================================================================== *)

(** The part of a request the two handlers read. *)
Record request : Type := mkRequest {
  authorization : option string          (* req.headers.authorization *)
}.

(** A transport object, by identity. *)
Definition transport : Type := nat.

(** What the client gets: a status with a JSON error body, or the request
    handed to [handlePostMessage] of a transport. *)
Inductive response : Type :=
| Status (status : Z) (error : string)
| Delivered (t : transport).

(** [authenticate]: [None] is the call of [next()]. *)
Definition authenticate (cfg : config) (req : request) : option response :=
  match authorization req with
  | None => Some (Status 401 "Missing authorization header")
  | Some authHeader =>
      if String.eqb authHeader "" || negb (prefix "Bearer " authHeader)
      then Some (Status 401 "Missing authorization header")
      else
        let token :=
          substring 7 (String.length authHeader - 7) authHeader in
        if negb (String.eqb token (authToken cfg))
        then Some (Status 403 "Invalid token")
        else None
  end.

(** The [transports] Map: keys in insertion order, each bound to the
    server created for it. *)
Definition registry : Type := list (transport * nat).

(** [transports.set(t, server)]: a key already present keeps its place. *)
Fixpoint registry_set (t : transport) (server : nat) (r : registry)
  : registry :=
  match r with
  | [] => [(t, server)]
  | (k, v) :: rest =>
      if Nat.eqb k t then (k, server) :: rest
      else (k, v) :: registry_set t server rest
  end.

(** [transports.delete(t)]. *)
Definition registry_delete (t : transport) (r : registry) : registry :=
  filter (fun kv => negb (Nat.eqb (fst kv) t)) r.

(** [const [transport] = transports.keys()]. *)
Definition first_key (r : registry) : option transport :=
  match r with
  | [] => None
  | (k, _) :: _ => Some k
  end.

(** GET /sse behind [authenticate]: registers the new transport. *)
Definition get_sse (cfg : config) (req : request) (t : transport)
           (server : nat) (r : registry) : registry :=
  match authenticate cfg req with
  | Some _ => r
  | None => registry_set t server r
  end.

(** POST /messages behind [authenticate]. *)
Definition post_messages (cfg : config) (r : registry) (req : request)
  : response :=
  match authenticate cfg req with
  | Some refused => refused
  | None =>
      match first_key r with
      | Some t => Delivered t
      | None => Status 400 "No active SSE connection"
      end
  end.

(* ===================================================================== *)
(** ** Specification-side definitions                                     *)
(* ===================================================================== *)

(** What the five replacements amount to on one code unit. *)
Definition escape_char (a : ascii) : string :=
  if Ascii.eqb a amp then "&amp;"
  else if Ascii.eqb a lt then "&lt;"
  else if Ascii.eqb a gt then "&gt;"
  else if Ascii.eqb a quot then "&quot;"
  else if Ascii.eqb a apos then "&apos;"
  else String a EmptyString.

(** [strip p s]: the rest of [s] after the prefix [p], when it has it. *)
Fixpoint strip (p s : string) : option string :=
  match p, s with
  | EmptyString, _ => Some s
  | String a p', String b s' => if Ascii.eqb a b then strip p' s' else None
  | String _ _, EmptyString => None
  end.

(** Modelled from the spec: the repository has no unescape function; the
    spec's round trip is read against the usual decoder of the five
    predefined entities, one pass from the left.  [fuel] bounds the
    number of code units read. *)
Fixpoint unescape_from (fuel : nat) (s : string) : string :=
  match fuel with
  | O => s
  | S fuel' =>
      match s with
      | EmptyString => EmptyString
      | String a rest =>
          if Ascii.eqb a amp then
            match strip "amp;" rest with
            | Some r => String amp (unescape_from fuel' r)
            | None =>
            match strip "lt;" rest with
            | Some r => String lt (unescape_from fuel' r)
            | None =>
            match strip "gt;" rest with
            | Some r => String gt (unescape_from fuel' r)
            | None =>
            match strip "quot;" rest with
            | Some r => String quot (unescape_from fuel' r)
            | None =>
            match strip "apos;" rest with
            | Some r => String apos (unescape_from fuel' r)
            | None => String a (unescape_from fuel' rest)
            end end end end end
          else String a (unescape_from fuel' rest)
      end
  end.

(** Modelled from the spec: unescaping a whole string. *)
Definition unescapeXml (s : string) : string :=
  unescape_from (String.length s) s.

(** An element as the spec describes it: the tag and the attributes of
    the fields that are present, in order. *)
Definition attribute (a : string * string) : string :=
  " " ++ fst a ++ "=" ++ quoted (snd a).

Definition element (tag : string) (attrs : list (string * string))
  : string :=
  "  <" ++ tag ++ String.concat "" (map attribute attrs) ++ " />".

(** An optional string field that is absent or holds a non-empty string. *)
Definition text_or_absent (v : jsval) : Prop :=
  v = JUndefined \/ exists s, v = JStr s /\ s <> "".

(** The five commands of the check-and-report example. *)
Definition example_commands : list command :=
  [ with_file (JStr "a.ifc") (cmd_of_type "openmodel");
    with_file (JStr "r.cset") (cmd_of_type "openruleset");
    cmd_of_type "check";
    with_version (JStr "2.1")
      (with_file (JStr "out.bcf") (cmd_of_type "bcfreport"));
    cmd_of_type "exit" ].

(** A bcfreport whose version holds a quote. *)
Definition quoting_version : string := "2.1" ++ dq ++ " x=" ++ dq ++ "y".

Definition injecting_commands : list command :=
  [ with_version (JStr quoting_version)
      (with_file (JStr "out.bcf") (cmd_of_type "bcfreport")) ].

(** An autocomment whose snapshots holds the same text. *)
Definition injecting_autocomment : command :=
  with_snapshots (JStr quoting_version) (cmd_of_type "autocomment").

(** Whether a code unit occurs in a string. *)
Fixpoint occurs (a : ascii) (s : string) : bool :=
  match s with
  | EmptyString => false
  | String b rest => Ascii.eqb a b || occurs a rest
  end.

(** A field escapeXml accepts: falsy, or a string. *)
Definition escapable (v : jsval) : Prop :=
  truthy v = false \/ exists s, v = JStr s.

Definition renderable (c : command) : Prop :=
  escapable (file c) /\ escapable (name c) /\ escapable (templatefile c)
  /\ escapable (title c).

Definition file_tags : list string :=
  ["openmodel"; "updatemodel"; "savemodel"; "openclassification";
   "openruleset"; "openito"].

(** A configuration and a [path.join] to run the models on. *)
Definition sample_config : config :=
  mkConfig "secret" "Solibri.exe" 10876 "autorun" "output"
           "Classifications" "Rulesets" "Information Takeoff" "Templates"
           1800000 false.

Definition sample_join (dir f : string) : string := dir ++ "/" ++ f.

(** Whether a trace holds a close event. *)
Definition is_close (e : event) : bool :=
  match e with
  | ProcClose _ _ => true
  | _ => false
  end.

(** What the spec says of a finished [waitUntilIdle]. *)
Section WaitSpec.
Variable world : nat -> round.
Variables timeoutMs pollIntervalMs start : Z.

(** [Date.now()] at the test of the loop condition that follows [k] busy
    polls: each round took the time of its status call, the pause and
    the lateness of its timer. *)
Fixpoint clock_at (k : nat) : Z :=
  match k with
  | O => start
  | S k' =>
      clock_at k' + Z.of_N (latency (world k'))
      + timer_delay pollIntervalMs + Z.of_N (lateness (world k'))
  end.

(** What a finished call looks like, with [k] the number of pauses: each
    of the [k] polls before the last was made while time remained and
    reported busy, and was followed by a pause of the caller's interval;
    then either the deadline had passed at the next test, and the call
    threw the timeout without another poll, or time remained, poll [k]
    was made, and it ended the call, by reporting not busy or by
    throwing. *)
Definition wait_spec (o : wait_outcome) : Prop :=
  let k := List.length (sleeps o) in
  sleeps o = repeat pollIntervalMs k
  /\ (forall i, (i < k)%nat ->
        clock_at i - start < timeoutMs
        /\ isBusy (reply (world i)) = Return true)
  /\ match wait_result o with
     | Return b =>
         b = true /\ polls o = S k
         /\ clock_at k - start < timeoutMs
         /\ isBusy (reply (world k)) = Return false
         /\ finished_at o = clock_at k + Z.of_N (latency (world k))
     | Throw e =>
         (e = idle_timeout_error timeoutMs /\ polls o = k
          /\ timeoutMs <= clock_at k - start
          /\ finished_at o = clock_at k)
         \/ (clock_at k - start < timeoutMs
             /\ isBusy (reply (world k)) = Throw e /\ polls o = S k
             /\ finished_at o = clock_at k + Z.of_N (latency (world k)))
     end.
End WaitSpec.

(** A status endpoint that always reports busy, and one that reports busy
    twice and then idle; each call takes 5 ms and each timer is 1 ms
    late. *)
Definition always_busy : nat -> round :=
  fun _ => mkRound (ReplyObject (JBool true)) 5 1.

Definition busy_twice : nat -> round :=
  fun i => mkRound (ReplyObject (JBool (Nat.ltb i 2))) 5 1.

Definition known_types : list string :=
  ["classifications"; "rulesets"; "ito"; "templates"].

(** The extensions listAssets filters a type by. *)
Definition type_extensions (ty : string) : list string :=
  match extensions ty with
  | Own l => l
  | _ => []
  end.

(** [f] ends with [ext] up to the case of its letters. *)
Definition ends_with_ci (f ext : string) : Prop :=
  exists pre suf, f = pre ++ suf /\ toLowerCase suf = toLowerCase ext.

(** The test of the filter. *)
Definition has_extension (exts : list string) (f : string) : bool :=
  existsb (fun ext => endsWith (toLowerCase f) ext) exts.

Definition sample_fs : filesystem :=
  fun p =>
    if String.eqb p "Rulesets"
    then Some (FsDir ["Arch.cset"; "notes.txt"; "MEP.CSET"; "x.cset.bak"])
    else None.

(** A request that carries the token [tok] as a bearer token. *)
Definition bearer (tok : string) : request :=
  mkRequest (Some ("Bearer " ++ tok)).

(* ===================================================================== *)
(** ** index.js: the command lists of the tool handlers                   *)
(* ===================================================================== *)

(** The object literal with a type and a file. *)
Definition file_command (tag : string) (f : jsval) : command :=
  with_file f (cmd_of_type tag).

(** [a || b]. *)
Definition js_or (a b : jsval) : jsval :=
  if truthy a then a else b.

(** A destructured array parameter with the default [= []]. *)
Definition or_empty (a : option (list jsval)) : list jsval :=
  match a with
  | Some l => l
  | None => []
  end.

(** solibri_check_model. *)
Definition check_model_commands (modelPath : jsval) (rulesets : list jsval)
           (classifications : option (list jsval))
           (outputBcf outputSmc : jsval) : list command :=
  [file_command "openmodel" modelPath]
  ++ map (file_command "openclassification") (or_empty classifications)
  ++ map (file_command "openruleset") rulesets
  ++ [cmd_of_type "check"]
  ++ (if truthy outputBcf
      then [with_version (JStr "2.1") (file_command "bcfreport" outputBcf)]
      else [])
  ++ (if truthy outputSmc then [file_command "savemodel" outputSmc] else [])
  ++ [cmd_of_type "exit"].

(** solibri_quantity_takeoff. *)
Definition quantity_takeoff_commands
           (modelPath itoFile outputExcel templateFile itoName title_ : jsval)
  : list command :=
  [ file_command "openmodel" modelPath;
    file_command "openito" itoFile;
    with_name itoName (cmd_of_type "takeoff");
    mkCommand (JStr "itoreport") outputExcel itoName templateFile title_
              JUndefined JUndefined;
    cmd_of_type "exit" ].

(** solibri_create_model. *)
Definition create_model_commands (ifcFiles : list jsval) (outputSmc : jsval)
           (classifications : option (list jsval)) : list command :=
  map (file_command "openmodel") ifcFiles
  ++ map (file_command "openclassification") (or_empty classifications)
  ++ [file_command "savemodel" outputSmc; cmd_of_type "exit"].

(** solibri_update_model. *)
Definition update_model_commands (smcPath : jsval) (ifcFiles : list jsval)
           (outputSmc : jsval) : list command :=
  [file_command "openmodel" smcPath]
  ++ map (file_command "updatemodel") ifcFiles
  ++ [file_command "savemodel" (js_or outputSmc smcPath);
      cmd_of_type "exit"].

(** The tags generateXml has a case for. *)
Definition known_tags : list string :=
  ["openmodel"; "updatemodel"; "savemodel"; "openclassification";
   "openruleset"; "openito"; "check"; "takeoff"; "itoreport"; "bcfreport";
   "createpresentation"; "updatepresentation"; "autocomment";
   "autoupdatemodels"; "exit"].

Definition has_known_tag (c : command) : bool :=
  existsb (is_type c) known_tags.

(** A string argument, as the input schemas declare them. *)
Definition is_string (v : jsval) : Prop := exists s, v = JStr s.

(** The text of an attribute value carries no markup of its own. *)
Definition clean_value (s : string) : Prop :=
  occurs lt s = false /\ occurs gt s = false /\ occurs quot s = false
  /\ occurs apos s = false.

(** Each ampersand of [s] starts one of the five entities. *)
Definition starts_entity (s : string) : bool :=
  match strip "amp;" s, strip "lt;" s, strip "gt;" s, strip "quot;" s,
        strip "apos;" s with
  | None, None, None, None, None => false
  | _, _, _, _, _ => true
  end.

Fixpoint ampersands_start_entities (s : string) : bool :=
  match s with
  | EmptyString => true
  | String a rest =>
      (if Ascii.eqb a amp then starts_entity rest else true)
      && ampersands_start_entities rest
  end.

(** The number of occurrences of a code unit. *)
Fixpoint count_occ_char (a : ascii) (s : string) : nat :=
  match s with
  | EmptyString => O
  | String b rest =>
      ((if Ascii.eqb b a then 1 else 0) + count_occ_char a rest)%nat
  end.

(** A string without any of the five metacharacters. *)
Fixpoint no_metachar (s : string) : bool :=
  match s with
  | EmptyString => true
  | String a rest =>
      negb (Ascii.eqb a amp) && negb (Ascii.eqb a lt)
      && negb (Ascii.eqb a gt) && negb (Ascii.eqb a quot)
      && negb (Ascii.eqb a apos) && no_metachar rest
  end.

(* ===================================================================== *)
(** ** index.js: the request handler of a session                         *)
(* ===================================================================== *)

Section RequestHandler.
(** The arguments and the result of a tool handler are left abstract. *)
Variables A R : Type.
Variable empty_args : A.                       (* the default [{}] *)

Record tool : Type := mkTool {
  tool_name : string;
  tool_handler : A -> completion R
}.

Variable TOOLS : list tool.

(** What [fallbackRequestHandler] returns. *)
Inductive handler_reply : Type :=
| InitializeResult (protocolVersion : string)
| ToolsList (names : list string)
| ResourcesList                         (* { resources: [] } *)
| PromptsList                           (* { prompts: [] } *)
| ToolReturned (r : R)
| ToolFailed (text : string)            (* isError: true *)
| RpcError (code_ : Z) (message : string).

Definition error_message (e : js_error) : string :=
  match e with
  | TypeError m => m
  | Error m => m
  end.

(** [TOOLS.find((t) => t.name === name)]: [name] is undefined when the
    request has no params or no name. *)
Definition find_tool (name_ : option string) : option tool :=
  match name_ with
  | None => None
  | Some n => find (fun t => String.eqb (tool_name t) n) TOOLS
  end.

Definition name_to_string (name_ : option string) : string :=
  match name_ with
  | Some n => n
  | None => "undefined"
  end.

(** [fallbackRequestHandler({ method, params })]; [params] gives the name
    and the arguments of a tools/call. *)
Definition fallbackRequestHandler (method : string)
           (params : option (option string * option A)) : handler_reply :=
  if String.eqb method "initialize" then InitializeResult "2024-11-05"
  else if String.eqb method "tools/list"
  then ToolsList (map tool_name TOOLS)
  else if String.eqb method "resources/list" then ResourcesList
  else if String.eqb method "prompts/list" then PromptsList
  else if String.eqb method "tools/call" then
    let name_ := match params with Some (n, _) => n | None => None end in
    let args :=
      match params with
      | Some (_, Some a) => a
      | _ => empty_args
      end in
    match find_tool name_ with
    | Some t =>
        match tool_handler t args with
        | Return r => ToolReturned r
        | Throw e => ToolFailed ("Error: " ++ error_message e)
        end
    | None => RpcError (-32601) ("Tool not found: " ++ name_to_string name_)
    end
  else RpcError (-32601) ("Method not found: " ++ method).
End RequestHandler.

Arguments mkTool {A R} _ _.
Arguments tool_name {A R} _.
Arguments tool_handler {A R} _.
Arguments InitializeResult {R} _.
Arguments ToolsList {R} _.
Arguments ResourcesList {R}.
Arguments PromptsList {R}.
Arguments ToolReturned {R} _.
Arguments ToolFailed {R} _.
Arguments RpcError {R} _ _.
Arguments find_tool {A R} _ _.
Arguments fallbackRequestHandler {A R} _ _ _ _.

(** The keys of the registry, and a connect or disconnect of a session. *)
Definition registry_keys (r : registry) : list transport := map fst r.

Inductive registry_op : Type :=
| Connect (t : transport) (server : nat)
| Disconnect (t : transport).

Definition apply_op (op : registry_op) (r : registry) : registry :=
  match op with
  | Connect t server => registry_set t server r
  | Disconnect t => registry_delete t r
  end.

Definition apply_ops (ops : list registry_op) (r : registry) : registry :=
  fold_left (fun acc op => apply_op op acc) ops r.

Definition disconnects (t : transport) (op : registry_op) : bool :=
  match op with
  | Disconnect t' => Nat.eqb t' t
  | Connect _ _ => false
  end.

(* ===================================================================== *)
(** ** rest-client.js: request and status                                 *)
(* ===================================================================== *)

Module RestClient.

(** An awaited call: its value, or the error thrown with the [code] of its
    [cause], if it has one. *)
Inductive attempt (A : Type) : Type :=
| Done (a : A)
| Failed (e : js_error) (cause_code : option string).
Arguments Done {A} a.
Arguments Failed {A} e cause_code.

(** The response [fetch] resolves with: [response.ok], the status, the
    content-type header and what [text()] and [json()] would give. *)
Record http_response (J : Type) : Type := mkResponse {
  resp_ok : bool;
  resp_status : Z;
  resp_content_type : option string;
  resp_text : attempt string;
  resp_json : attempt J
}.
Arguments mkResponse {J} _ _ _ _ _.
Arguments resp_ok {J} _.
Arguments resp_status {J} _.
Arguments resp_content_type {J} _.
Arguments resp_text {J} _.
Arguments resp_json {J} _.

Inductive payload (J : Type) : Type :=
| Json (j : J)
| Text (t : string).
Arguments Json {J} j.
Arguments Text {J} t.

(** [s.includes(needle)]. *)
Fixpoint includes (s needle : string) : bool :=
  prefix needle s
  || match s with
     | EmptyString => false
     | String _ rest => includes rest needle
     end.

Definition not_running_error : js_error :=
  Error ("Solibri is not running or REST API is not enabled. "
         ++ "Start Solibri with --rest-api-server-port flag.").

Definition api_error (status : Z) (text : string) : js_error :=
  Error ("Solibri API error: " ++ Z_to_string status ++ " - " ++ text).

(** The [catch (error)] block of [request]. *)
Definition on_catch {A : Type} (e : js_error) (cause_code : option string)
  : completion A :=
  match cause_code with
  | Some c =>
      if String.eqb c "ECONNREFUSED" then Throw not_running_error
      else Throw e
  | None => Throw e
  end.

(** [request(endpoint, options)], given what [fetch] did. *)
Definition request {J : Type} (fetched : attempt (http_response J))
  : completion (payload J) :=
  match fetched with
  | Failed e c => on_catch e c
  | Done response =>
      if negb (resp_ok response) then
        match resp_text response with
        | Done text => on_catch (api_error (resp_status response) text) None
        | Failed e c => on_catch e c
        end
      else
        let is_json :=
          match resp_content_type response with
          | Some contentType =>
              negb (String.eqb contentType "")
              && includes contentType "application/json"
          | None => false
          end in
        if is_json then
          match resp_json response with
          | Done j => Return (Json j)
          | Failed e c => on_catch e c
          end
        else
          match resp_text response with
          | Done text => Return (Text text)
          | Failed e c => on_catch e c
          end
  end.

(** The JSON body of a status reply as [isBusy] reads it: [None] is JSON
    null, [Some b] any other value, with [b] its [busy] member
    ([JUndefined] when it has none). *)
Definition status_json : Type := option jsval.

(** [status()] seen through [request('/status')]. *)
Definition status (fetched : attempt (http_response status_json))
  : status_reply :=
  match request fetched with
  | Return (Json (Some b)) => ReplyObject b
  | Return (Json None) => ReplyNull
  | Return (Text t) => ReplyText t
  | Throw e => ReplyFails e
  end.

End RestClient.

(** A world whose rounds come from what [fetch] does. *)
Definition world_of
           (fetches : nat -> RestClient.attempt
                               (RestClient.http_response
                                  RestClient.status_json) * N * N)
  : nat -> round :=
  fun i =>
    let '(f, lat, late) := fetches i in
    mkRound (RestClient.status f) lat late.

(** Rounds that take no time beyond the pause itself. *)
Definition instantaneous (world : nat -> round) : Prop :=
  forall i, latency (world i) = 0%N /\ lateness (world i) = 0%N.

(** What holds of a job whatever the events delivered so far: the promise
    holds the first call made on it; while the timer is armed nothing is
    settled and no signal was sent; and a signal, once sent, is the one
    SIGTERM of the fired timer, whose rejection was the first call. *)
Definition job_invariant (cfg : config) (j : job) : Prop :=
  promise j = hd_error (calls j)
  /\ (timer j = TimerArmed -> promise j = None /\ signals j = [])
  /\ (signals j = []
      \/ (signals j = [SIGTERM] /\ timer j = TimerFired
          /\ promise j = Some (Rejected (timeout_error cfg)))).

(** The last code unit of a string. *)
Fixpoint last_char (s : string) : option ascii :=
  match s with
  | EmptyString => None
  | String a EmptyString => Some a
  | String _ rest => last_char rest
  end.

(** Sample data to run the models on. *)
Definition keeping_config : config :=
  mkConfig "secret" "Solibri.exe" 10876 "autorun" "output"
           "Classifications" "Rulesets" "Information Takeoff" "Templates"
           1800000 true.

Definition file_fs : filesystem :=
  fun p => if String.eqb p "Rulesets" then Some FsFile else None.

Definition busy_at_once : nat -> round :=
  fun _ => mkRound (ReplyObject (JBool true)) 0 0.

Definition refusing_fetches
  : nat -> RestClient.attempt
             (RestClient.http_response RestClient.status_json) * N * N :=
  fun _ => (RestClient.Failed (TypeError "fetch failed")
                              (Some "ECONNREFUSED"), 3%N, 0%N).

Definition sample_tools : list (@tool string string) :=
  [ mkTool "solibri_list_assets" (fun a => Return ("assets of " ++ a));
    mkTool "solibri_status" (fun _ => Throw (Error "boom")) ].

(* ===================================================================== *)
(** ** The script as the spec words it                                    *)
(* ===================================================================== *)

(** The text of a script written out on its own, with none of the
    renderer's helpers: a quote mark and a line feed by their codes. *)
Definition spec_quote : string := String "034"%char EmptyString.
Definition spec_newline : string := String "010"%char EmptyString.

Definition spec_header : string :=
  "<?xml version=" ++ spec_quote ++ "1.0" ++ spec_quote ++ " encoding="
  ++ spec_quote ++ "UTF-8" ++ spec_quote ++ "?>".

Fixpoint spec_body (lines : list string) : string :=
  match lines with
  | [] => ""
  | l :: rest => l ++ spec_newline ++ spec_body rest
  end.

(** The fixed envelope around the lines of the elements. *)
Definition spec_document (lines : list string) : string :=
  spec_header ++ spec_newline ++ "<autorun>" ++ spec_newline
  ++ spec_body lines ++ "</autorun>".

(** Escaping by the spec's table, one code unit at a time. *)
Fixpoint spec_escape (s : string) : string :=
  match s with
  | EmptyString => EmptyString
  | String a rest => escape_char a ++ spec_escape rest
  end.

Definition spec_attribute (a : string * string) : string :=
  " " ++ fst a ++ "=" ++ spec_quote ++ snd a ++ spec_quote.

Definition spec_element (tag : string) (attrs : list (string * string))
  : string :=
  "  <" ++ tag ++ String.concat "" (map spec_attribute attrs) ++ " />".

(** The integers a double holds exactly. *)
Definition safe_integer (n : Z) : Prop := Z.abs n <= 9007199254740991.

(** The text of a field in an attribute: a string escaped, a boolean or
    a number in its own notation. *)
Definition spec_text (v : jsval) : string :=
  match v with
  | JStr s => spec_escape s
  | JBool true => "true"
  | JBool false => "false"
  | JNum n => Z_to_string n
  | _ => ""
  end.

(** An optional field gives an attribute when it is there and none when
    it is absent. *)
Definition spec_optional (label : string) (v : jsval)
  : list (string * string) :=
  match v with
  | JUndefined => []
  | _ => [(label, spec_text v)]
  end.

(** The tags whose element has a [file] attribute. *)
Definition carries_file (t : string) : bool :=
  existsb (String.eqb t)
    ["openmodel"; "updatemodel"; "savemodel"; "openclassification";
     "openruleset"; "openito"; "itoreport"; "bcfreport"].

(** The rendering of one command by the spec's words: one element per
    operation of a known tag, its attributes named after the fields, the
    optional ones only when present, every value escaped. *)
Definition spec_render (c : command) : option string :=
  match type c with
  | JStr t =>
      if existsb (String.eqb t)
           ["openmodel"; "updatemodel"; "savemodel"; "openclassification";
            "openruleset"; "openito"]
      then Some (spec_element t [("file", spec_text (file c))])
      else if existsb (String.eqb t)
           ["check"; "createpresentation"; "updatepresentation";
            "autoupdatemodels"; "exit"]
      then Some (spec_element t [])
      else if String.eqb t "takeoff"
      then Some (spec_element t (spec_optional "name" (name c)))
      else if String.eqb t "itoreport"
      then Some (spec_element t
             ([("file", spec_text (file c))]
              ++ spec_optional "templatefile" (templatefile c)
              ++ spec_optional "title" (title c)
              ++ spec_optional "name" (name c)))
      else if String.eqb t "bcfreport"
      then Some (spec_element t
             ([("file", spec_text (file c))]
              ++ spec_optional "version" (version c)))
      else if String.eqb t "autocomment"
      then Some (spec_element t (spec_optional "snapshots" (snapshots c)))
      else None
  | _ => None
  end.

(** A version that is absent or a non-empty text without metacharacter:
    the code writes a version as it is, so only such a text is the same
    escaped or not. *)
Definition plain_text_or_absent (v : jsval) : Prop :=
  v = JUndefined
  \/ exists s, v = JStr s /\ s <> "" /\ no_metachar s = true.

(** A snapshots option that is absent, a text without metacharacter, a
    boolean or a safe integer. *)
Definition plain_value_or_absent (v : jsval) : Prop :=
  v = JUndefined
  \/ (exists s, v = JStr s /\ no_metachar s = true)
  \/ (exists b, v = JBool b)
  \/ (exists n, v = JNum n /\ safe_integer n).

(** An operation as the spec's data model has it: the file is a string
    where the tag has one, the optional texts are absent or not empty,
    and the two fields the code does not escape hold nothing to
    escape. *)
Definition well_formed (c : command) : Prop :=
  (forall t, type c = JStr t -> carries_file t = true -> is_string (file c))
  /\ text_or_absent (name c)
  /\ text_or_absent (templatefile c) /\ text_or_absent (title c)
  /\ plain_text_or_absent (version c)
  /\ plain_value_or_absent (snapshots c).

(** The script of the check-and-report example, character by
    character. *)
Definition expected_example_script : string :=
  "<?xml version=" ++ spec_quote ++ "1.0" ++ spec_quote ++ " encoding="
  ++ spec_quote ++ "UTF-8" ++ spec_quote ++ "?>" ++ spec_newline
  ++ "<autorun>" ++ spec_newline
  ++ "  <openmodel file=" ++ spec_quote ++ "a.ifc" ++ spec_quote ++ " />"
  ++ spec_newline
  ++ "  <openruleset file=" ++ spec_quote ++ "r.cset" ++ spec_quote ++ " />"
  ++ spec_newline
  ++ "  <check />" ++ spec_newline
  ++ "  <bcfreport file=" ++ spec_quote ++ "out.bcf" ++ spec_quote
  ++ " version=" ++ spec_quote ++ "2.1" ++ spec_quote ++ " />"
  ++ spec_newline
  ++ "  <exit />" ++ spec_newline
  ++ "</autorun>".

(** The script of a lone openmodel without file. *)
Definition expected_empty_file_script : string :=
  "<?xml version=" ++ spec_quote ++ "1.0" ++ spec_quote ++ " encoding="
  ++ spec_quote ++ "UTF-8" ++ spec_quote ++ "?>" ++ spec_newline
  ++ "<autorun>" ++ spec_newline
  ++ "  <openmodel file=" ++ spec_quote ++ spec_quote ++ " />"
  ++ spec_newline
  ++ "</autorun>".

(** [transports.get(t)]: the server a transport was registered with. *)
Definition registry_lookup (t : transport) (r : registry) : option nat :=
  match find (fun kv => Nat.eqb (fst kv) t) r with
  | Some kv => Some (snd kv)
  | None => None
  end.

(* ===================================================================== *)
(** ** The scripts of the tools as the spec words them                    *)
(* ===================================================================== *)

(** An element: its tag and its attributes, values already escaped. *)
Definition xml_element : Type := (string * list (string * string))%type.

Definition render_element (e : xml_element) : string :=
  spec_element (fst e) (snd e).

Definition file_el (tag s : string) : xml_element :=
  (tag, [("file", spec_escape s)]).

Definition plain_el (tag : string) : xml_element := (tag, []).

(** An optional argument counts when it is given and not empty. *)
Definition given (o : option string) : option string :=
  match o with
  | Some EmptyString => None
  | _ => o
  end.

Definition given_attr (label : string) (o : option string)
  : list (string * string) :=
  match given o with
  | Some s => [(label, spec_escape s)]
  | None => []
  end.

(** The argument as the handler receives it. *)
Definition arg (o : option string) : jsval :=
  match o with
  | Some s => JStr s
  | None => JUndefined
  end.

Definition args (l : list string) : list jsval := map JStr l.

Definition opt_args (l : option (list string)) : option (list jsval) :=
  option_map args l.

Definition or_none (l : option (list string)) : list string :=
  match l with
  | Some x => x
  | None => []
  end.

Definition check_model_elements (modelPath : string)
           (rulesets : list string) (classifications : option (list string))
           (outputBcf outputSmc : option string) : list xml_element :=
  [file_el "openmodel" modelPath]
  ++ map (file_el "openclassification") (or_none classifications)
  ++ map (file_el "openruleset") rulesets
  ++ [plain_el "check"]
  ++ match given outputBcf with
     | Some b => [("bcfreport", [("file", spec_escape b); ("version", "2.1")])]
     | None => []
     end
  ++ match given outputSmc with
     | Some s => [file_el "savemodel" s]
     | None => []
     end
  ++ [plain_el "exit"].

Definition quantity_takeoff_elements
           (modelPath itoFile outputExcel : string)
           (templateFile itoName title_ : option string)
  : list xml_element :=
  [ file_el "openmodel" modelPath;
    file_el "openito" itoFile;
    ("takeoff", given_attr "name" itoName);
    ("itoreport",
     ([("file", spec_escape outputExcel)]
      ++ given_attr "templatefile" templateFile
      ++ given_attr "title" title_
      ++ given_attr "name" itoName)%list);
    plain_el "exit" ].

Definition create_model_elements (ifcFiles : list string)
           (outputSmc : string) (classifications : option (list string))
  : list xml_element :=
  map (file_el "openmodel") ifcFiles
  ++ map (file_el "openclassification") (or_none classifications)
  ++ [file_el "savemodel" outputSmc; plain_el "exit"].

Definition update_model_elements (smcPath : string)
           (ifcFiles : list string) (outputSmc : option string)
  : list xml_element :=
  [file_el "openmodel" smcPath]
  ++ map (file_el "updatemodel") ifcFiles
  ++ [file_el "savemodel"
        (match given outputSmc with Some s => s | None => smcPath end);
      plain_el "exit"].

(** Every attribute value of the elements is free of markup. *)
Definition clean_elements (es : list xml_element) : Prop :=
  Forall (fun e => Forall (fun a => clean_value (snd a)) (snd e)) es.

(* ===================================================================== *)
(** ** Strings and the escaping chain                                     *)
(* ===================================================================== *)

Lemma append_assoc (a b c : string) : (a ++ b) ++ c = a ++ (b ++ c).
Proof. induction a as [|x a IH]; simpl; [reflexivity | now rewrite IH]. Qed.

Lemma append_nil_r (a : string) : a ++ "" = a.
Proof. induction a as [|x a IH]; simpl; [reflexivity | now rewrite IH]. Qed.

Lemma length_append (a b : string) :
  String.length (a ++ b) = (String.length a + String.length b)%nat.
Proof. induction a as [|x a IH]; simpl; [reflexivity | now rewrite IH]. Qed.

Lemma replace_all_app c r a b :
  replace_all c r (a ++ b) = replace_all c r a ++ replace_all c r b.
Proof.
  induction a as [|x a IH]; simpl; [reflexivity|].
  destruct (Ascii.eqb x c); rewrite IH; simpl.
  - now rewrite append_assoc.
  - reflexivity.
Qed.

Lemma replace_all_other c r a s :
  Ascii.eqb a c = false ->
  replace_all c r (String a s) = String a (replace_all c r s).
Proof. intros E. cbn [replace_all]. now rewrite E. Qed.

Ltac case_char a c :=
  let E := fresh "E" in
  destruct (Ascii.eqb a c) eqn:E;
  [apply Ascii.eqb_eq in E; subst a|].

Lemma escape_chain_cons a s :
  escape_chain (String a s) = escape_char a ++ escape_chain s.
Proof.
  unfold escape_chain, escape_char.
  case_char a amp; [reflexivity|].
  case_char a lt; [reflexivity|].
  case_char a gt; [reflexivity|].
  case_char a quot; [reflexivity|].
  case_char a apos; [reflexivity|].
  now rewrite !replace_all_other by assumption.
Qed.

Lemma unescape_escape_fuel s :
  forall fuel, (String.length (escape_chain s) <= fuel)%nat ->
               unescape_from fuel (escape_chain s) = s.
Proof.
  induction s as [|a s IH]; intros fuel Hf.
  - destruct fuel; reflexivity.
  - rewrite escape_chain_cons in *. unfold escape_char in *.
    case_char a amp.
    { destruct fuel; simpl in Hf; [lia|]. simpl. f_equal. apply IH. lia. }
    case_char a lt.
    { destruct fuel; simpl in Hf; [lia|]. simpl. f_equal. apply IH. lia. }
    case_char a gt.
    { destruct fuel; simpl in Hf; [lia|]. simpl. f_equal. apply IH. lia. }
    case_char a quot.
    { destruct fuel; simpl in Hf; [lia|]. simpl. f_equal. apply IH. lia. }
    case_char a apos.
    { destruct fuel; simpl in Hf; [lia|]. simpl. f_equal. apply IH. lia. }
    destruct fuel; simpl in Hf; [lia|]. simpl. rewrite E. f_equal. apply IH. lia.
Qed.

(* ===================================================================== *)
(** ** The renderer against the specification of an element              *)
(* ===================================================================== *)

Lemma escapeXml_string s : escapeXml (JStr s) = Return (escape_chain s).
Proof. destruct s; reflexivity. Qed.

Lemma escapeXml_falsy v : truthy v = false -> escapeXml v = Return "".
Proof. intros H. unfold escapeXml. now rewrite H. Qed.

Lemma truthy_text s : s <> "" -> truthy (JStr s) = true.
Proof.
  intros H. simpl. apply negb_true_iff. now apply String.eqb_neq.
Qed.

Lemma escape_chain_spec s : escape_chain s = spec_escape s.
Proof.
  induction s as [|a s IH]; [reflexivity|].
  rewrite escape_chain_cons, IH. reflexivity.
Qed.

Lemma escapeXml_spec s : escapeXml (JStr s) = Return (spec_escape s).
Proof. now rewrite escapeXml_string, escape_chain_spec. Qed.

Lemma spec_escape_plain s : no_metachar s = true -> spec_escape s = s.
Proof.
  induction s as [|a s IH]; [reflexivity|].
  cbn [no_metachar]. rewrite !andb_true_iff, !negb_true_iff.
  intros (((((A & B) & C) & D) & E) & F).
  cbn [spec_escape]. rewrite (IH F). unfold escape_char.
  now rewrite A, B, C, D, E.
Qed.

Lemma concat_cons sep x xs :
  xs <> [] -> String.concat sep (x :: xs) = x ++ sep ++ String.concat sep xs.
Proof. destruct xs; [contradiction | reflexivity]. Qed.

Lemma app_last_not_nil {A : Type} (l : list A) (x : A) : (l ++ [x])%list <> [].
Proof. destruct l; discriminate. Qed.

(** The envelope the renderer joins is the one of the spec. *)
Lemma join_lines_body lines last_line :
  join_lines (lines ++ [last_line])%list = spec_body lines ++ last_line.
Proof.
  unfold join_lines. induction lines as [|l lines IH]; [reflexivity|].
  cbn [app spec_body].
  rewrite concat_cons by apply app_last_not_nil.
  rewrite IH. unfold nl, spec_newline. now rewrite !append_assoc.
Qed.

Lemma join_lines_document lines :
  join_lines ([xml_header; "<autorun>"] ++ lines ++ ["</autorun>"])%list
  = spec_document lines.
Proof.
  pose proof (join_lines_body lines "</autorun>") as B.
  unfold join_lines in *. cbn [app].
  rewrite concat_cons by discriminate.
  rewrite concat_cons by apply app_last_not_nil.
  rewrite B. reflexivity.
Qed.

Lemma generateXml_document cs lines :
  render_commands cs = Return lines ->
  generateXml cs = Return (spec_document lines).
Proof.
  intros H. unfold generateXml. rewrite H. cbn [bind].
  now rewrite join_lines_document.
Qed.

Ltac field_cases H :=
  let s := fresh "s" in
  let Hs := fresh "Hs" in
  destruct H as [->|[s [-> Hs]]];
  [ | cbn [bind]; rewrite ?(truthy_text _ Hs), ?escapeXml_spec ].

Ltac norm_strings :=
  unfold spec_element, spec_optional, spec_attribute, spec_text;
  repeat first [ rewrite append_assoc
               | progress cbn -[spec_escape Z_to_string] ];
  reflexivity.

Ltac known_type t label :=
  let E := fresh "E" in
  destruct (String.eqb t label) eqn:E;
  [ apply String.eqb_eq in E; subst t | ].

Lemma render_command_spec c :
  well_formed c -> render_command c = Return (spec_render c).
Proof.
  destruct c as [ty f n tf ti v sn].
  unfold well_formed; cbn [type file name templatefile title version
                           snapshots].
  intros (Hf & Hn & Htf & Hti & Hv & Hsn).
  unfold render_command, spec_render, is_type, file_element;
    cbn [type file name templatefile title version snapshots].
  destruct ty as [| | |?|t]; try reflexivity.
  specialize (Hf t eq_refl).
  cbn [existsb].
  known_type t "openmodel".
  { destruct (Hf eq_refl) as [s ->]. rewrite escapeXml_spec. norm_strings. }
  known_type t "updatemodel".
  { destruct (Hf eq_refl) as [s ->]. rewrite escapeXml_spec. norm_strings. }
  known_type t "savemodel".
  { destruct (Hf eq_refl) as [s ->]. rewrite escapeXml_spec. norm_strings. }
  known_type t "openclassification".
  { destruct (Hf eq_refl) as [s ->]. rewrite escapeXml_spec. norm_strings. }
  known_type t "openruleset".
  { destruct (Hf eq_refl) as [s ->]. rewrite escapeXml_spec. norm_strings. }
  known_type t "openito".
  { destruct (Hf eq_refl) as [s ->]. rewrite escapeXml_spec. norm_strings. }
  cbn [orb].
  known_type t "check"; [reflexivity|].
  known_type t "takeoff".
  { field_cases Hn; norm_strings. }
  known_type t "itoreport".
  { destruct (Hf eq_refl) as [s ->]. rewrite escapeXml_spec. cbn [bind].
    field_cases Htf; field_cases Hti; field_cases Hn; norm_strings. }
  known_type t "bcfreport".
  { destruct (Hf eq_refl) as [s ->]. rewrite escapeXml_spec. cbn [bind].
    destruct Hv as [->|(v' & -> & Nv & Pv)]; [norm_strings|].
    rewrite (truthy_text _ Nv). cbn [js_to_string spec_optional spec_text].
    rewrite (spec_escape_plain _ Pv). norm_strings. }
  known_type t "createpresentation"; [reflexivity|].
  known_type t "updatepresentation"; [reflexivity|].
  known_type t "autocomment".
  { destruct Hsn as [->|[(s & -> & Ps)|[(b & ->)|(z & -> & _)]]].
    - reflexivity.
    - cbn [js_to_string spec_optional spec_text].
      rewrite (spec_escape_plain _ Ps). norm_strings.
    - destruct b; reflexivity.
    - norm_strings. }
  known_type t "autoupdatemodels"; [reflexivity|].
  known_type t "exit"; [reflexivity|].
  reflexivity.
Qed.

Example escapeXml_metacharacters :
  escapeXml (JStr ("<a href=" ++ dq ++ "x" ++ dq ++ ">Tom & 'Jerry'</a>"))
  = Return "&lt;a href=&quot;x&quot;&gt;Tom &amp; &apos;Jerry&apos;&lt;/a&gt;".
Proof. reflexivity. Qed.

Example escapeXml_number_throws :
  escapeXml (JNum 5) = Throw (TypeError "str.replace is not a function").
Proof. reflexivity. Qed.

Example unescapeXml_entities :
  unescapeXml "&lt;b&gt; &amp;amp; &bogus; &quot;q&apos;"
  = "<b> &amp; &bogus; " ++ dq ++ "q'".
Proof. reflexivity. Qed.

(** The escaped text of a field holds no angle bracket, quote or
    apostrophe. *)
Lemma occurs_app a s t : occurs a (s ++ t) = occurs a s || occurs a t.
Proof.
  induction s as [|x s IH]; simpl; [reflexivity|].
  now rewrite IH, orb_assoc.
Qed.

Lemma escape_chain_clean a s :
  occurs a (escape_chain s) = true ->
  a <> lt /\ a <> gt /\ a <> quot /\ a <> apos.
Proof.
  induction s as [|x s IH]; [discriminate|].
  rewrite escape_chain_cons, occurs_app. intros H.
  apply orb_true_iff in H as [H|H]; [|now apply IH].
  unfold escape_char in H.
  repeat match type of H with
         | context [if Ascii.eqb x ?c then _ else _] =>
             let E := fresh "E" in destruct (Ascii.eqb x c) eqn:E
         end;
    try (simpl in H;
         repeat match type of H with
                | (Ascii.eqb a ?c || _) = true =>
                    apply orb_true_iff in H as [H|H];
                    [apply Ascii.eqb_eq in H; subst a;
                     repeat split; discriminate|]
                | false = true => discriminate
                end).
  simpl in H. rewrite orb_false_r in H. apply Ascii.eqb_eq in H. subst x.
  repeat split; intros ->; discriminate.
Qed.

(** C1. Not every textual field is escaped: generateXml interpolates the
    version of a bcfreport, and the snapshots of an autocomment, as they
    are.  On the command list [injecting_commands], whose version holds a
    quote, the rendered script carries that quote unescaped, where
    escapeXml would have written the entity, and the element reads as one
    with a third attribute. *)
Theorem C1_version_is_not_escaped :
  generateXml injecting_commands
  = Return (join_lines
      [ xml_header; "<autorun>";
        "  <bcfreport file=" ++ quoted "out.bcf"
          ++ " version=" ++ quoted quoting_version ++ " />";
        "</autorun>" ])
  /\ occurs quot quoting_version = true
  /\ escapeXml (JStr quoting_version) = Return "2.1&quot; x=&quot;y"
  /\ render_command (with_version (JStr quoting_version)
                       (with_file (JStr "out.bcf") (cmd_of_type "bcfreport")))
     = Return (Some (element "bcfreport"
                       [("file", "out.bcf"); ("version", "2.1");
                        ("x", "y")]))
  /\ render_command injecting_autocomment
     = Return (Some ("  <autocomment snapshots=" ++ quoted quoting_version
                       ++ " />")).
Proof. repeat split; reflexivity. Qed.

Lemma is_type_true c label : is_type c label = true -> type c = JStr label.
Proof.
  unfold is_type. destruct (type c); try discriminate.
  intros H. apply String.eqb_eq in H. now subst.
Qed.

(** An absent optional field leaves no attribute behind. *)
Lemma absent_optional_fields c :
  (is_type c "takeoff" = true -> name c = JUndefined ->
   render_command c = Return (Some "  <takeoff />"))
  /\ (is_type c "autocomment" = true -> snapshots c = JUndefined ->
      render_command c = Return (Some "  <autocomment />"))
  /\ (is_type c "bcfreport" = true -> version c = JUndefined ->
      forall s, file c = JStr s ->
      render_command c
      = Return (Some ("  <bcfreport file=" ++ spec_quote ++ spec_escape s
                      ++ spec_quote ++ " />")))
  /\ (is_type c "itoreport" = true -> templatefile c = JUndefined ->
      title c = JUndefined -> name c = JUndefined ->
      forall s, file c = JStr s ->
      render_command c
      = Return (Some ("  <itoreport file=" ++ spec_quote ++ spec_escape s
                      ++ spec_quote ++ " />"))).
Proof.
  repeat split; intros T; apply is_type_true in T;
    unfold render_command, is_type, file_element; rewrite T;
    cbn [String.eqb Ascii.eqb Bool.eqb].
  - now intros ->.
  - now intros ->.
  - intros -> s ->. rewrite escapeXml_spec. norm_strings.
  - intros -> -> -> s ->. rewrite escapeXml_spec. norm_strings.
Qed.

(** C5. The five commands openmodel a.ifc, openruleset r.cset, check,
    bcfreport out.bcf version 2.1, exit render to the text of
    [expected_example_script]: the header, the root element and, in that
    order, one element per command with exactly the stated attributes.
    For every well-formed command the line rendered is the element of
    the spec: its tag, and the attributes of the fields that are
    present, an absent optional field giving none.  And a takeoff
    without name, an autocomment without snapshots, a bcfreport without
    version and an itoreport without templatefile, title and name render
    as the element without those attributes, whatever the other optional
    fields hold. *)
Theorem C5_example_render_and_absent_fields :
  generateXml example_commands = Return expected_example_script
  /\ (forall c, well_formed c -> render_command c = Return (spec_render c))
  /\ (forall label, spec_optional label JUndefined = [])
  /\ (forall c,
        (is_type c "takeoff" = true -> name c = JUndefined ->
         render_command c = Return (Some "  <takeoff />"))
        /\ (is_type c "autocomment" = true -> snapshots c = JUndefined ->
            render_command c = Return (Some "  <autocomment />"))
        /\ (is_type c "bcfreport" = true -> version c = JUndefined ->
            forall s, file c = JStr s ->
            render_command c
            = Return (Some ("  <bcfreport file=" ++ spec_quote
                            ++ spec_escape s ++ spec_quote ++ " />")))
        /\ (is_type c "itoreport" = true -> templatefile c = JUndefined ->
            title c = JUndefined -> name c = JUndefined ->
            forall s, file c = JStr s ->
            render_command c
            = Return (Some ("  <itoreport file=" ++ spec_quote
                            ++ spec_escape s ++ spec_quote ++ " />")))).
Proof.
  split; [reflexivity|]. split; [apply render_command_spec|].
  split; [reflexivity | apply absent_optional_fields].
Qed.

Lemma C5_witness :
  render_command (with_title (JStr "T & Co")
                    (with_file (JStr "r.xlsx") (cmd_of_type "itoreport")))
  = Return (Some ("  <itoreport file=" ++ spec_quote ++ "r.xlsx"
                  ++ spec_quote ++ " title=" ++ spec_quote
                  ++ "T &amp; Co" ++ spec_quote ++ " />")).
Proof.
  apply (proj1 (proj2 C5_example_render_and_absent_fields)
           (with_title (JStr "T & Co")
              (with_file (JStr "r.xlsx") (cmd_of_type "itoreport")))).
  unfold well_formed. simpl.
  split; [intros t _ _; now exists "r.xlsx"|].
  split; [now left|]. split; [now left|].
  split; [right; exists "T & Co"; split; [reflexivity | discriminate]|].
  split; now left.
Defined.

(** C8. For every string [s], unescaping what escapeXml returns for [s]
    gives [s] back. *)
Theorem C8_escape_round_trip (s : string) :
  exists e, escapeXml (JStr s) = Return e /\ unescapeXml e = s.
Proof.
  exists (escape_chain s). split; [apply escapeXml_string|].
  unfold unescapeXml. now apply unescape_escape_fuel.
Qed.

Lemma escapeXml_returns v : escapable v -> exists e, escapeXml v = Return e.
Proof.
  intros [H|[s ->]].
  - exists "". now apply escapeXml_falsy.
  - eexists. apply escapeXml_string.
Qed.

Lemma render_command_returns c :
  renderable c -> exists l, render_command c = Return l.
Proof.
  intros (Hf & Hn & Htf & Hti).
  apply escapeXml_returns in Hf as [ef Ef], Hn as [en En],
        Htf as [etf Etf], Hti as [eti Eti].
  unfold render_command, file_element. rewrite Ef, En, Etf, Eti.
  repeat match goal with
         | |- context [if ?b then _ else _] => destruct b
         end; cbn [bind]; eauto.
Qed.

Lemma render_commands_returns cs :
  Forall renderable cs -> exists ls, render_commands cs = Return ls.
Proof.
  induction 1 as [|c cs Hc _ [ls IH]]; simpl; [eauto|].
  destruct (render_command_returns c Hc) as [l ->]. rewrite IH.
  cbn [bind]. eauto.
Qed.

Lemma file_element_falsy tag c :
  truthy (file c) = false ->
  file_element tag c = Return ("  <" ++ tag ++ " file=" ++ quoted "" ++ " />").
Proof.
  intros H. unfold file_element. now rewrite (escapeXml_falsy _ H).
Qed.

(** C9. escapeXml returns the empty string for every falsy argument; a
    command of a file-carrying tag whose file is falsy renders as the
    element of that tag with a file attribute that is there and empty;
    generateXml returns a whole script on every command list whose
    escaped fields are falsy or strings; and a lone openmodel without
    file renders to the text of [expected_empty_file_script]. *)
Theorem C9_falsy_fields_render_empty :
  (forall v, truthy v = false -> escapeXml v = Return "")
  /\ (forall tag c,
        In tag file_tags -> type c = JStr tag -> truthy (file c) = false ->
        render_command c
        = Return (Some ("  <" ++ tag ++ " file=" ++ spec_quote ++ spec_quote
                        ++ " />")))
  /\ (forall cs, Forall renderable cs ->
                 exists lines, generateXml cs = Return (spec_document lines))
  /\ generateXml [cmd_of_type "openmodel"]
     = Return expected_empty_file_script.
Proof.
  split; [apply escapeXml_falsy|]. split; [|split; [|reflexivity]].
  - intros tag c Hin Hty Hf. unfold render_command, is_type. rewrite Hty.
    simpl in Hin.
    repeat destruct Hin as [<-|Hin]; try contradiction;
      cbn [String.eqb Ascii.eqb Bool.eqb]; 
      rewrite (file_element_falsy _ c Hf); reflexivity.
  - intros cs H.
    destruct (render_commands_returns cs H) as [ls E]. exists ls.
    now apply generateXml_document.
Qed.

Lemma C9_witness :
  escapeXml JNull = Return ""
  /\ render_command (with_file JNull (cmd_of_type "openito"))
     = Return (Some ("  <openito file=" ++ spec_quote ++ spec_quote
                     ++ " />"))
  /\ exists lines,
       generateXml [cmd_of_type "savemodel"; cmd_of_type "takeoff"]
       = Return (spec_document lines).
Proof.
  split; [|split].
  - apply (proj1 C9_falsy_fields_render_empty). reflexivity.
  - apply (proj1 (proj2 C9_falsy_fields_render_empty) "openito").
    + simpl. tauto.
    + reflexivity.
    + reflexivity.
  - apply (proj1 (proj2 (proj2 C9_falsy_fields_render_empty))).
    repeat constructor.
Defined.

(* ===================================================================== *)
(** ** The process supervisor                                             *)
(* ===================================================================== *)

Section Supervisor.
Variable path_join : string -> string -> string.
Variable cfg : config.

Lemma run_app es1 es2 j :
  run cfg (es1 ++ es2) j = run cfg es2 (run cfg es1 j).
Proof. revert j. induction es1 as [|e es1 IH]; intros j; simpl; auto. Qed.

(** A settled promise keeps its value whatever is called on it. *)
Lemma settle_settled s old j :
  promise j = Some old -> promise (settle s j) = Some old.
Proof. intros H. unfold settle; simpl. now rewrite H. Qed.

Lemma settle_pending s j :
  promise j = None -> promise (settle s j) = Some s.
Proof. intros H. unfold settle; simpl. now rewrite H. Qed.

Lemma promise_clearTimeout j : promise (clearTimeout j) = promise j.
Proof. unfold clearTimeout. now destruct (timer j). Qed.

Lemma promise_after_unlink b j :
  promise (match unlinkSync b j with Return j' => j' | Throw _ => j end)
  = promise j.
Proof. unfold unlinkSync. now destruct (b || negb (script_on_disk j)). Qed.

Lemma handle_settled e old j :
  promise j = Some old -> promise (handle cfg e j) = Some old.
Proof.
  intros H. destruct e as [chunk|chunk| |c b|m]; simpl; auto.
  - unfold on_timeout. destruct (timer j); auto.
    now apply settle_settled.
  - unfold on_close.
    assert (P : promise
              (if negb (keepXmlFiles cfg)
               then match unlinkSync b (clearTimeout j) with
                    | Return j' => j'
                    | Throw _ => clearTimeout j
                    end
               else clearTimeout j) = Some old).
    { destruct (negb (keepXmlFiles cfg));
        rewrite ?promise_after_unlink, promise_clearTimeout; exact H. }
    destruct c as [[| |]|]; now apply settle_settled.
  - unfold on_error. apply settle_settled. now rewrite promise_clearTimeout.
Qed.

Lemma run_settled es : forall old j,
  promise j = Some old -> promise (run cfg es j) = Some old.
Proof.
  induction es as [|e es IH]; intros old j H; simpl; auto.
  apply IH. now apply handle_settled.
Qed.

(** Once the timer is no longer armed, no event sends a signal. *)
Lemma handle_signals e j :
  timer j <> TimerArmed ->
  signals (handle cfg e j) = signals j
  /\ timer (handle cfg e j) <> TimerArmed.
Proof.
  intros H. destruct e as [chunk|chunk| |c b|m]; simpl; auto.
  - unfold on_timeout.
    destruct (timer j) eqn:T; [contradiction| |]; rewrite T;
      split; auto; discriminate.
  - unfold on_close, clearTimeout, unlinkSync.
    destruct (timer j) eqn:T; [contradiction| |];
      destruct (negb (keepXmlFiles cfg));
      destruct (b || negb (script_on_disk j));
      destruct c as [[| |]|]; simpl; rewrite ?T; split; auto; discriminate.
  - unfold on_error, clearTimeout.
    destruct (timer j) eqn:T; [contradiction| |]; simpl; rewrite T;
      split; auto; discriminate.
Qed.

Lemma run_signals es : forall j,
  timer j <> TimerArmed -> signals (run cfg es j) = signals j.
Proof.
  induction es as [|e es IH]; intros j H; simpl; auto.
  destruct (handle_signals e j H) as [S T]. now rewrite IH.
Qed.

(** Data events only grow the capture buffers. *)
Lemma run_data es : forall j,
  forallb is_data es = true ->
  let j' := run cfg es j in
  stdout j' = stdout j ++ captured_stdout es
  /\ stderr j' = stderr j ++ captured_stderr es
  /\ job_id j' = job_id j /\ xml_path j' = xml_path j
  /\ timer j' = timer j /\ signals j' = signals j
  /\ promise j' = promise j /\ calls j' = calls j
  /\ script_on_disk j' = script_on_disk j.
Proof.
  induction es as [|e es IH]; intros j H; simpl in *.
  - rewrite !append_nil_r. repeat split.
  - apply andb_true_iff in H as [He Hes].
    destruct e as [chunk|chunk| | |]; try discriminate;
      cbn [handle captured_stdout captured_stderr];
      match goal with
      | |- context [run cfg es ?j1] =>
          destruct (IH j1 Hes) as (A & B & C & D & E & F & G & I & K)
      end;
      simpl in *;
      rewrite A, B, C, D, E, F, G, I, K, ?append_assoc; repeat split.
Qed.

Lemma launch_state uuid commands j0 :
  launch path_join cfg uuid commands false = Return j0 ->
  j0 = mkJob uuid (path_join (autorunDir cfg) (uuid ++ ".xml")) "" ""
             TimerArmed [] None [] true.
Proof.
  unfold launch. destruct (generateXml commands); simpl; congruence.
Qed.

(** C2. A job launched and fed only output until the timer expires is
    pending up to then; the timer event rejects it with the timeout
    error and sends SIGTERM; whatever events follow, a late close
    included, the promise keeps that rejection and no further signal is
    sent. *)
Theorem C2_timeout_settles_once uuid commands before later j0 :
  launch path_join cfg uuid commands false = Return j0 ->
  forallb is_data before = true ->
  promise (run cfg before j0) = None
  /\ promise (run cfg (before ++ [TimerExpires]) j0)
     = Some (Rejected (timeout_error cfg))
  /\ signals (run cfg (before ++ [TimerExpires]) j0) = [SIGTERM]
  /\ promise (run cfg (before ++ TimerExpires :: later) j0)
     = Some (Rejected (timeout_error cfg))
  /\ signals (run cfg (before ++ TimerExpires :: later) j0) = [SIGTERM]
  /\ executeAutorun path_join cfg uuid commands false
       (before ++ TimerExpires :: later)
     = Some (Rejected (timeout_error cfg)).
Proof.
  intros L D. pose proof (launch_state _ _ _ L) as ->.
  destruct (run_data before
              (mkJob uuid (path_join (autorunDir cfg) (uuid ++ ".xml"))
                 "" "" TimerArmed [] None [] true) D)
    as (_ & _ & _ & _ & T & S & P & _ & _).
  simpl in T, S, P.
  assert (P1 : promise (run cfg (before ++ [TimerExpires])
                 (mkJob uuid (path_join (autorunDir cfg) (uuid ++ ".xml"))
                    "" "" TimerArmed [] None [] true))
               = Some (Rejected (timeout_error cfg))).
  { rewrite run_app. simpl. unfold on_timeout. rewrite T.
    apply settle_pending. exact P. }
  assert (S1 : signals (run cfg (before ++ [TimerExpires])
                 (mkJob uuid (path_join (autorunDir cfg) (uuid ++ ".xml"))
                    "" "" TimerArmed [] None [] true)) = [SIGTERM]).
  { rewrite run_app. simpl. unfold on_timeout. rewrite T. simpl.
    now rewrite S. }
  assert (T1 : timer (run cfg (before ++ [TimerExpires])
                 (mkJob uuid (path_join (autorunDir cfg) (uuid ++ ".xml"))
                    "" "" TimerArmed [] None [] true)) <> TimerArmed).
  { rewrite run_app. simpl. unfold on_timeout. rewrite T. simpl.
    discriminate. }
  assert (A : forall j, run cfg (before ++ TimerExpires :: later) j
                        = run cfg later
                            (run cfg (before ++ [TimerExpires]) j)).
  { intros j. now rewrite !run_app. }
  repeat split; auto.
  - rewrite A. now apply run_settled.
  - rewrite A, run_signals; auto.
  - unfold executeAutorun. rewrite L, A. now apply run_settled.
Qed.

(** The path that deletes: a close event, with deletion enabled and the
    unlink going through, leaves no script file. *)
Lemma close_deletes_script c j :
  keepXmlFiles cfg = false -> script_on_disk j = true ->
  script_on_disk (handle cfg (ProcClose c false) j) = false.
Proof.
  destruct j as [i x o e t sg p cl d]. simpl. intros K ->.
  unfold on_close, unlinkSync, clearTimeout. rewrite K. simpl.
  destruct t, c as [[| |]|]; reflexivity.
Qed.

(** The swallowed failure: whether the unlink throws changes neither the
    promise nor the calls made on it. *)
Lemma unlink_failure_is_swallowed c j :
  promise (handle cfg (ProcClose c true) j)
  = promise (handle cfg (ProcClose c false) j)
  /\ calls (handle cfg (ProcClose c true) j)
     = calls (handle cfg (ProcClose c false) j).
Proof.
  destruct j as [i x o e t sg p cl d].
  simpl. unfold on_close, unlinkSync, clearTimeout. simpl.
  destruct (keepXmlFiles cfg), t, d, c as [[| |]|]; simpl;
    split; reflexivity.
Qed.

(** The paths that do not delete: only the close callback unlinks, so a
    trace without a close event leaves the file where it was. *)
Lemma script_stays_without_close es : forall j,
  forallb (fun e => negb (is_close e)) es = true ->
  script_on_disk (run cfg es j) = script_on_disk j.
Proof.
  induction es as [|e es IH]; intros j H; simpl in *; auto.
  apply andb_true_iff in H as [He Hes]. rewrite (IH _ Hes).
  destruct e; try discriminate; simpl; auto.
  - unfold on_timeout. now destruct (timer j).
  - unfold on_error, clearTimeout. now destruct (timer j).
Qed.

(** The close callback on a pending job whose timer is armed. *)
Lemma on_close_pending c b j :
  timer j = TimerArmed -> promise j = None ->
  timer (on_close cfg c b j) = TimerCleared
  /\ signals (on_close cfg c b j) = signals j
  /\ promise (on_close cfg c b j)
     = Some (match c with
             | Some 0%Z =>
                 Resolved (mkResult (job_id j) true 0 (stdout j) (stderr j))
             | _ =>
                 Rejected
                   (Error ("Autorun exited with code " ++ code_to_string c
                           ++ ": " ++ str_or (stderr j) (stdout j)))
             end).
Proof.
  destruct j as [i x o e t sg p cl d]. simpl. intros -> ->.
  unfold on_close, unlinkSync, clearTimeout, exit_error. simpl.
  destruct (keepXmlFiles cfg), b, d, c as [[| |]|]; simpl;
    repeat split; reflexivity.
Qed.

(** C4. A job launched and fed only output until the process closes
    has its timer cleared by the close event, after which no event
    sends a signal; exit code 0 resolves with the job id, success, the
    code and the two captured streams; any other code rejects with the
    code and the captured stderr, or the captured stdout when stderr
    is empty. *)
Theorem C4_exit_before_deadline uuid commands before c unlink_throws j0 :
  launch path_join cfg uuid commands false = Return j0 ->
  forallb is_data before = true ->
  let j := run cfg (before ++ [ProcClose c unlink_throws]) j0 in
  timer j = TimerCleared
  /\ (forall later, signals (run cfg later j) = [])
  /\ (c = Some 0%Z ->
      promise j
      = Some (Resolved (mkResult uuid true 0 (captured_stdout before)
                                 (captured_stderr before))))
  /\ (c <> Some 0%Z ->
      promise j
      = Some (Rejected
                (Error ("Autorun exited with code " ++ code_to_string c
                        ++ ": "
                        ++ (if String.eqb (captured_stderr before) ""
                            then captured_stdout before
                            else captured_stderr before))))).
Proof.
  intros L D j. pose proof (launch_state _ _ _ L) as E. subst j0.
  destruct (run_data before
              (mkJob uuid (path_join (autorunDir cfg) (uuid ++ ".xml"))
                 "" "" TimerArmed [] None [] true) D)
    as (O & R & I & _ & T & S & P & _ & _).
  simpl in O, R, I, T, S, P.
  assert (J : j = on_close cfg c unlink_throws
                    (run cfg before
                       (mkJob uuid
                          (path_join (autorunDir cfg) (uuid ++ ".xml"))
                          "" "" TimerArmed [] None [] true))).
  { subst j. now rewrite run_app. }
  destruct (on_close_pending c unlink_throws _ T P) as (TJ & SJ & PJ).
  rewrite <- J in TJ, SJ, PJ. rewrite S in SJ. rewrite O, R, I in PJ.
  split; [exact TJ|]. split.
  { intros later. rewrite run_signals; [exact SJ|].
    rewrite TJ. discriminate. }
  split.
  - intros ->. exact PJ.
  - intros N. rewrite PJ. unfold str_or.
    destruct c as [[| |]|]; congruence.
Qed.
End Supervisor.

Lemma C2_witness :
  executeAutorun sample_join sample_config "job-1" example_commands false
    ([StdoutData "loading"] ++ TimerExpires :: [ProcClose None false])
  = Some (Rejected (Error "Autorun timed out after 1800000ms")).
Proof.
  refine (proj2 (proj2 (proj2 (proj2 (proj2
    (C2_timeout_settles_once sample_join sample_config "job-1"
       example_commands [StdoutData "loading"] [ProcClose None false]
       _ eq_refl eq_refl)))))).
Defined.

Lemma C4_witness :
  promise (run sample_config
             ([StdoutData "out"; StderrData ""] ++ [ProcClose (Some 3%Z) true])
             (mkJob "job-1" "autorun/job-1.xml" "" "" TimerArmed [] None []
                    true))
  = Some (Rejected (Error "Autorun exited with code 3: out")).
Proof.
  refine (proj2 (proj2 (proj2
    (C4_exit_before_deadline sample_join sample_config "job-1"
       example_commands [StdoutData "out"; StderrData ""] (Some 3%Z) true
       _ eq_refl eq_refl))) _).
  discriminate.
Defined.

(** C3. The script file is not deleted on every settlement path: with
    deletion enabled, a job that times out and a job whose spawn fails
    are both settled while the script file is still on disk; only a
    close event removes it. *)
Theorem C3_script_left_on_timeout_and_spawn_failure :
  let j0 := mkJob "job-1" "autorun/job-1.xml" "" "" TimerArmed [] None []
                  true in
  launch sample_join sample_config "job-1" example_commands false = Return j0
  /\ keepXmlFiles sample_config = false
  /\ promise (run sample_config [TimerExpires] j0)
     = Some (Rejected (Error "Autorun timed out after 1800000ms"))
  /\ script_on_disk (run sample_config [TimerExpires] j0) = true
  /\ promise (run sample_config [ProcError "spawn Solibri.exe ENOENT"] j0)
     = Some (Rejected
               (Error "Failed to start Solibri: spawn Solibri.exe ENOENT"))
  /\ script_on_disk
       (run sample_config [ProcError "spawn Solibri.exe ENOENT"] j0) = true
  /\ script_on_disk (run sample_config [ProcClose (Some 1%Z) false] j0)
     = false.
Proof. repeat split; reflexivity. Qed.

(* ===================================================================== *)
(** ** Asset listing                                                      *)
(* ===================================================================== *)

Lemma substring_all s : substring 0 (String.length s) s = s.
Proof. induction s as [|a s IH]; simpl; [reflexivity | now rewrite IH]. Qed.

Lemma substring_suffix p x :
  substring (String.length p) (String.length x) (p ++ x) = x.
Proof. induction p as [|a p IH]; simpl; [apply substring_all | exact IH]. Qed.

Lemma substring_split s : forall k,
  (k <= String.length s)%nat ->
  s = substring 0 k s ++ substring k (String.length s - k) s.
Proof.
  induction s as [|a s IH]; intros [|k] H; simpl in *; try lia.
  - reflexivity.
  - now rewrite substring_all.
  - f_equal. apply IH. lia.
Qed.

Lemma endsWith_spec s x : endsWith s x = true <-> exists p, s = p ++ x.
Proof.
  unfold endsWith. rewrite andb_true_iff, Nat.leb_le, String.eqb_eq. split.
  - intros [L E]. exists (substring 0 (String.length s - String.length x) s).
    pose proof (substring_split s (String.length s - String.length x)) as H.
    replace (String.length s - (String.length s - String.length x))%nat
      with (String.length x) in H by lia.
    rewrite E in H. apply H. lia.
  - intros [p ->]. rewrite length_append. split; [lia|].
    replace (String.length p + String.length x - String.length x)%nat
      with (String.length p) by lia.
    apply substring_suffix.
Qed.

Lemma toLowerCase_app a b :
  toLowerCase (a ++ b) = toLowerCase a ++ toLowerCase b.
Proof. induction a as [|x a IH]; simpl; [reflexivity | now rewrite IH]. Qed.

Lemma toLowerCase_length s : String.length (toLowerCase s) = String.length s.
Proof. induction s as [|x s IH]; simpl; [reflexivity | now rewrite IH]. Qed.

Lemma append_same_length a : forall a' b b',
  String.length a = String.length a' -> a ++ b = a' ++ b' -> b = b'.
Proof.
  induction a as [|x a IH]; intros [|x' a'] b b' L E; simpl in *;
    try discriminate; auto.
  injection L as L. injection E as _ E. now apply (IH a' b b').
Qed.

(** On a lower-case extension the test of the code is the
    case-insensitive suffix test. *)
Lemma endsWith_lower_ci f ext :
  toLowerCase ext = ext ->
  endsWith (toLowerCase f) ext = true <-> ends_with_ci f ext.
Proof.
  intros Hl. rewrite endsWith_spec. unfold ends_with_ci. split.
  - intros [p E].
    assert (L : (String.length p <= String.length f)%nat).
    { rewrite <- (toLowerCase_length f), E, length_append. lia. }
    exists (substring 0 (String.length p) f),
           (substring (String.length p) (String.length f - String.length p) f).
    split; [now apply substring_split|].
    rewrite Hl. rewrite (substring_split f _ L), toLowerCase_app in E.
    eapply append_same_length; [|exact E].
    rewrite toLowerCase_length.
    assert (K : forall s k, (k <= String.length s)%nat ->
                            String.length (substring 0 k s) = k).
    { clear. induction s as [|a s IH]; intros [|k] H; simpl in *; try lia;
        auto. rewrite IH; lia. }
    now apply K.
  - intros (pre & suf & -> & E). exists (toLowerCase pre).
    now rewrite toLowerCase_app, E, Hl.
Qed.

Lemma extensions_lower ty ext :
  In ext (type_extensions ty) -> toLowerCase ext = ext.
Proof.
  unfold type_extensions, extensions, inherited_or_missing.
  repeat match goal with
         | |- context [if ?b then _ else _] => destruct b
         end; simpl; intros H;
    repeat destruct H as [<-|H]; try contradiction; reflexivity.
Qed.

Lemma has_extension_spec ty f :
  has_extension (type_extensions ty) f = true
  <-> exists ext, In ext (type_extensions ty) /\ ends_with_ci f ext.
Proof.
  unfold has_extension. rewrite existsb_exists. split.
  - intros (ext & I & E). exists ext. split; [exact I|].
    apply endsWith_lower_ci; [now apply (extensions_lower ty)|exact E].
  - intros (ext & I & E). exists ext. split; [exact I|].
    apply endsWith_lower_ci; [now apply (extensions_lower ty)|exact E].
Qed.

Section Assets.
Variable path_join : string -> string -> string.
Variable cfg : config.
Variable fs : filesystem.

Lemma listAssets_unknown ty :
  ~ In ty known_types -> listAssets path_join cfg fs ty = Return [].
Proof.
  intros N. unfold listAssets, dirs.
  destruct (String.eqb ty "classifications") eqn:E1;
    [apply String.eqb_eq in E1; subst; exfalso; apply N; simpl; tauto|].
  destruct (String.eqb ty "rulesets") eqn:E2;
    [apply String.eqb_eq in E2; subst; exfalso; apply N; simpl; tauto|].
  destruct (String.eqb ty "ito") eqn:E3;
    [apply String.eqb_eq in E3; subst; exfalso; apply N; simpl; tauto|].
  destruct (String.eqb ty "templates") eqn:E4;
    [apply String.eqb_eq in E4; subst; exfalso; apply N; simpl; tauto|].
  unfold inherited_or_missing.
  now destruct (existsb (String.eqb ty) object_prototype_keys).
Qed.

(** C10. For a type that is none of classifications, rulesets, ito,
    templates, and for a known type whose directory does not exist,
    listAssets returns the empty list and does not throw; for a known
    type whose directory exists it returns, in directory order, one
    asset per entry whose name ends, case-insensitively, with one of
    the extensions of the type. *)
Theorem C10_listAssets_lists_by_extension ty :
  (~ In ty known_types -> listAssets path_join cfg fs ty = Return [])
  /\ (forall dir,
        dirs cfg ty = Own dir -> existsSync fs dir = false ->
        listAssets path_join cfg fs ty = Return [])
  /\ (forall dir entries,
        dirs cfg ty = Own dir -> dir <> "" ->
        fs dir = Some (FsDir entries) ->
        listAssets path_join cfg fs ty
        = Return (map (fun f => mkAsset f (path_join dir f))
                      (filter (has_extension (type_extensions ty))
                              entries))
        /\ forall f,
             has_extension (type_extensions ty) f = true
             <-> exists ext, In ext (type_extensions ty)
                             /\ ends_with_ci f ext).
Proof.
  split; [apply listAssets_unknown|]. split.
  - intros dir D E. unfold listAssets. rewrite D, E.
    now rewrite orb_true_r.
  - intros dir entries D N F. split; [|apply has_extension_spec].
    unfold listAssets, existsSync, readdirSync. rewrite D, F.
    apply String.eqb_neq in N. rewrite N. reflexivity.
Qed.
End Assets.

Lemma C10_witness :
  listAssets sample_join sample_config sample_fs "plugins" = Return []
  /\ listAssets sample_join sample_config sample_fs "ito" = Return []
  /\ listAssets sample_join sample_config sample_fs "rulesets"
     = Return [ mkAsset "Arch.cset" "Rulesets/Arch.cset";
                mkAsset "MEP.CSET" "Rulesets/MEP.CSET" ].
Proof.
  split; [|split].
  - apply (proj1 (C10_listAssets_lists_by_extension sample_join sample_config
                    sample_fs "plugins")).
    simpl. intros [H|[H|[H|[H|[]]]]]; discriminate.
  - apply (proj1 (proj2 (C10_listAssets_lists_by_extension sample_join
                           sample_config sample_fs "ito"))
             "Information Takeoff"); reflexivity.
  - apply (proj1 (proj2 (proj2 (C10_listAssets_lists_by_extension sample_join
                                  sample_config sample_fs "rulesets"))
                    "Rulesets" ["Arch.cset"; "notes.txt"; "MEP.CSET";
                                "x.cset.bak"]
                    eq_refl ltac:(discriminate) eq_refl)).
Defined.

(* ===================================================================== *)
(** ** Polling until idle                                                 *)
(* ===================================================================== *)

Lemma timer_delay_positive ms : 1 <= timer_delay ms.
Proof.
  unfold timer_delay.
  destruct (ms <? 1) eqn:A; simpl; [lia|].
  destruct (2147483647 <? ms); [lia|]. apply Z.ltb_ge in A. lia.
Qed.

Lemma repeat_snoc {A : Type} (x : A) n :
  (repeat x n ++ [x])%list = repeat x (S n).
Proof. induction n as [|n IH]; simpl; [reflexivity | now rewrite IH]. Qed.

Section Polling.
Variable world : nat -> round.
Variables timeoutMs pollIntervalMs start : Z.

Lemma clock_at_step k :
  clock_at world pollIntervalMs start k + 1
  <= clock_at world pollIntervalMs start (S k).
Proof.
  cbn [clock_at]. pose proof (timer_delay_positive pollIntervalMs).
  pose proof (N2Z.is_nonneg (latency (world k))).
  pose proof (N2Z.is_nonneg (lateness (world k))). lia.
Qed.

Lemma clock_at_mono i k :
  (i <= k)%nat ->
  clock_at world pollIntervalMs start i
  <= clock_at world pollIntervalMs start k.
Proof.
  induction 1 as [|k _ IH]; [lia|].
  pose proof (clock_at_step k). lia.
Qed.

Lemma wait_loop_spec (m : nat) : forall i,
  (Z.to_nat (timeoutMs - (clock_at world pollIntervalMs start i - start))
   <= m)%nat ->
  (forall j, (j < i)%nat ->
     clock_at world pollIntervalMs start j - start < timeoutMs
     /\ isBusy (reply (world j)) = Return true) ->
  exists o,
    (forall fuel, (m < fuel)%nat ->
       wait_loop world timeoutMs pollIntervalMs start fuel i
         (clock_at world pollIntervalMs start i)
         (repeat pollIntervalMs i) = Some o)
    /\ wait_spec world timeoutMs pollIntervalMs start o.
Proof.
  induction m as [|m IH]; intros i Hm Hbusy.
  - (* the deadline has passed *)
    exists (mkOutcome (Throw (idle_timeout_error timeoutMs)) i
               (repeat pollIntervalMs i)
               (clock_at world pollIntervalMs start i)).
    split.
    + intros [|fuel] Hf; [lia|]. simpl.
      destruct (clock_at world pollIntervalMs start i - start <? timeoutMs)
        eqn:G; [|reflexivity].
      apply Z.ltb_lt in G. lia.
    + unfold wait_spec; simpl. rewrite repeat_length.
      split; [reflexivity|]. split; [exact Hbusy|]. left.
      repeat split; lia.
  - destruct (clock_at world pollIntervalMs start i - start <? timeoutMs)
      eqn:G.
    + pose proof G as G'. apply Z.ltb_lt in G'.
      destruct (isBusy (reply (world i))) as [[|]|e] eqn:B.
      * (* busy: pause and go round again *)
        destruct (IH (S i)) as (o & Ho & So).
        { pose proof (clock_at_step i). lia. }
        { intros j Hj. destruct (Nat.eq_dec j i) as [->|];
            [now split|]. apply Hbusy. lia. }
        exists o. split; [|exact So].
        intros [|fuel] Hf; [lia|]. simpl. rewrite G, B, repeat_snoc.
        apply Ho. lia.
      * (* idle: return true *)
        exists (mkOutcome (Return true) (S i) (repeat pollIntervalMs i)
                   (clock_at world pollIntervalMs start i
                    + Z.of_N (latency (world i)))).
        split.
        -- intros [|fuel] Hf; [lia|]. simpl. now rewrite G, B.
        -- unfold wait_spec; simpl. rewrite repeat_length.
           split; [reflexivity|]. split; [exact Hbusy|]. repeat split; auto.
      * (* the status call throws *)
        exists (mkOutcome (Throw e) (S i) (repeat pollIntervalMs i)
                   (clock_at world pollIntervalMs start i
                    + Z.of_N (latency (world i)))).
        split.
        -- intros [|fuel] Hf; [lia|]. simpl. now rewrite G, B.
        -- unfold wait_spec; simpl. rewrite repeat_length.
           split; [reflexivity|]. split; [exact Hbusy|]. right.
           repeat split; auto.
    + exists (mkOutcome (Throw (idle_timeout_error timeoutMs)) i
                 (repeat pollIntervalMs i)
                 (clock_at world pollIntervalMs start i)).
      split.
      * intros [|fuel] Hf; [lia|]. simpl. now rewrite G.
      * unfold wait_spec; simpl. rewrite repeat_length.
        apply Z.ltb_ge in G.
        split; [reflexivity|]. split; [exact Hbusy|]. left.
        repeat split; auto.
Qed.

(** What the spec of a finished call decides when poll [k] is the first
    that is not busy and is made while time remains. *)
Lemma wait_spec_first_idle o k :
  wait_spec world timeoutMs pollIntervalMs start o ->
  (forall i, (i < k)%nat -> isBusy (reply (world i)) = Return true) ->
  isBusy (reply (world k)) = Return false ->
  clock_at world pollIntervalMs start k - start < timeoutMs ->
  wait_result o = Return true /\ polls o = S k
  /\ sleeps o = repeat pollIntervalMs k
  /\ finished_at o
     = clock_at world pollIntervalMs start k + Z.of_N (latency (world k)).
Proof.
  unfold wait_spec.
  set (k' := List.length (sleeps o)).
  intros (S & Busy & R) Before Idle InTime.
  assert (K : k' = k).
  { destruct (Nat.lt_trichotomy k' k) as [L|[E|L]]; [|exact E|].
    - (* the call ended before poll k: only a passed deadline or a poll
         that was not busy ends it *)
      exfalso. destruct (wait_result o) as [b|e].
      + destruct R as (_ & _ & _ & I & _).
        rewrite (Before k' L) in I. discriminate.
      + destruct R as [(_ & _ & D & _)|(_ & I & _)].
        * pose proof (clock_at_mono k' k (Nat.lt_le_incl _ _ L)). lia.
        * rewrite (Before k' L) in I. discriminate.
    - (* the call went past poll k, which was not busy *)
      exfalso. destruct (Busy k L) as [_ B]. rewrite Idle in B.
      discriminate. }
  rewrite K in *. destruct (wait_result o) as [b|e].
  - destruct R as (-> & P & _ & _ & F). auto.
  - exfalso. destruct R as [(_ & _ & D & _)|(_ & I & _)]; [lia|].
    rewrite Idle in I. discriminate.
Qed.

(** C7. With enough fuel waitUntilIdle ends, and ends as [wait_spec]
    says: it polls while time remains and pauses after each busy poll,
    every pause being requested with the caller's interval.  As soon as
    a poll made while time remains reports not busy, the polls before
    it having reported busy, it returns true, with that poll as its last
    and no pause after it.  When every poll made while time remains
    reports busy it throws the timeout error at or after the deadline,
    after polling at every test of the loop that found time
    remaining. *)
Theorem C7_waitUntilIdle_polls_until_idle_or_deadline :
  exists n o,
    (forall fuel, (n < fuel)%nat ->
       waitUntilIdle world (Some timeoutMs) (Some pollIntervalMs) start fuel
       = Some o)
    /\ wait_spec world timeoutMs pollIntervalMs start o
    /\ (forall k,
          (forall i, (i < k)%nat -> isBusy (reply (world i)) = Return true) ->
          isBusy (reply (world k)) = Return false ->
          clock_at world pollIntervalMs start k - start < timeoutMs ->
          wait_result o = Return true /\ polls o = S k
          /\ sleeps o = repeat pollIntervalMs k
          /\ finished_at o
             = clock_at world pollIntervalMs start k
               + Z.of_N (latency (world k)))
    /\ ((forall i,
           clock_at world pollIntervalMs start i - start < timeoutMs ->
           isBusy (reply (world i)) = Return true) ->
        wait_result o = Throw (idle_timeout_error timeoutMs)
        /\ timeoutMs <= finished_at o - start
        /\ sleeps o = repeat pollIntervalMs (polls o)
        /\ finished_at o = clock_at world pollIntervalMs start (polls o)
        /\ forall i, (i < polls o)%nat ->
                     clock_at world pollIntervalMs start i - start
                     < timeoutMs).
Proof.
  destruct (wait_loop_spec (Z.to_nat timeoutMs) 0%nat) as (o & Ho & So).
  - cbn [clock_at].
    replace (timeoutMs - (start - start)) with timeoutMs by lia. lia.
  - intros j Hj. lia.
  - exists (Z.to_nat timeoutMs), o. split; [exact Ho|]. split; [exact So|].
    split.
    + intros k. now apply wait_spec_first_idle.
    + intros All. destruct So as (S & Busy & R).
      destruct (wait_result o) as [b|e].
      * destruct R as (_ & _ & T & R & _). rewrite (All _ T) in R.
        discriminate.
      * destruct R as [(-> & P & D & F)|(T & R & _)].
        -- rewrite P, F. repeat split; auto.
           intros i Hi. now apply Busy.
        -- rewrite (All _ T) in R. discriminate.
Qed.
End Polling.

Lemma C7_witness :
  exists n o,
    (forall fuel, (n < fuel)%nat ->
       waitUntilIdle busy_twice (Some 5000) (Some 100) 0 fuel = Some o)
    /\ wait_result o = Return true /\ polls o = 3%nat
    /\ sleeps o = [100; 100] /\ finished_at o = 217.
Proof.
  destruct (C7_waitUntilIdle_polls_until_idle_or_deadline busy_twice
              5000 100 0) as (n & o & H & _ & A & _).
  exists n, o. split; [exact H|].
  apply (A 2%nat).
  - intros [|[|i]] Hi; [reflexivity | reflexivity | lia].
  - reflexivity.
  - vm_compute. reflexivity.
Defined.

Example waitUntilIdle_busy_forever :
  waitUntilIdle always_busy (Some 300) (Some 100) 0 10
  = Some (mkOutcome (Throw (Error "Solibri did not become idle within 300ms"))
                    3 [100; 100; 100] 318).
Proof. reflexivity. Qed.

Example waitUntilIdle_busy_twice :
  waitUntilIdle busy_twice None None 0 10
  = Some (mkOutcome (Return true) 3 [1000; 1000] 2017).
Proof. reflexivity. Qed.

Example waitUntilIdle_no_time :
  waitUntilIdle busy_twice (Some 0) None 0 1
  = Some (mkOutcome (Throw (Error "Solibri did not become idle within 0ms"))
                    0 [] 0).
Proof. reflexivity. Qed.

(* ===================================================================== *)
(** ** The follow-up endpoint                                             *)
(* ===================================================================== *)

Lemma authenticate_bearer cfg req :
  authorization req = Some ("Bearer " ++ authToken cfg) ->
  authenticate cfg req = None.
Proof.
  intros H. unfold authenticate. rewrite H.
  assert (P : prefix "Bearer " ("Bearer " ++ authToken cfg) = true).
  { simpl. now destruct (authToken cfg). }
  assert (S : substring 7 (String.length ("Bearer " ++ authToken cfg) - 7)
                ("Bearer " ++ authToken cfg) = authToken cfg).
  { rewrite length_append. change (String.length "Bearer ") with 7%nat.
    replace (7 + String.length (authToken cfg) - 7)%nat
      with (String.length (authToken cfg)) by lia.
    exact (substring_suffix "Bearer " (authToken cfg)). }
  rewrite P, S, String.eqb_refl. reflexivity.
Qed.

Lemma authenticate_refusal cfg req refusal :
  authenticate cfg req = Some refusal ->
  refusal = Status 401 "Missing authorization header"
  \/ refusal = Status 403 "Invalid token".
Proof.
  unfold authenticate. destruct (authorization req) as [h|].
  - destruct (_ || _); [intros [= <-]; now left|].
    destruct (negb _); [intros [= <-]; now right | discriminate].
  - intros [= <-]. now left.
Qed.

Lemma first_key_set t server r :
  first_key (registry_set t server r)
  = Some (match first_key r with Some k => k | None => t end).
Proof.
  destruct r as [|[k v] r]; simpl; [reflexivity|].
  now destruct (Nat.eqb k t).
Qed.

Example authenticate_wrong_token :
  authenticate sample_config (bearer "guess")
  = Some (Status 403 "Invalid token").
Proof. reflexivity. Qed.

Example authenticate_basic_scheme :
  authenticate sample_config (mkRequest (Some "Basic c2VjcmV0"))
  = Some (Status 401 "Missing authorization header").
Proof. reflexivity. Qed.

(** A disconnect removes the session: with the only transport deleted the
    endpoint answers 400 again. *)
Lemma disconnect_closes_session cfg req t server :
  authorization req = Some ("Bearer " ++ authToken cfg) ->
  post_messages cfg (registry_delete t (get_sse cfg req t server [])) req
  = Status 400 "No active SSE connection".
Proof.
  intros H. pose proof (authenticate_bearer cfg req H) as A.
  unfold post_messages, get_sse. rewrite A. simpl.
  now rewrite Nat.eqb_refl.
Qed.

Lemma authenticate_no_bearer cfg bad :
  (authorization bad = None \/ authorization bad = Some ""
   \/ exists h, authorization bad = Some h /\ prefix "Bearer " h = false) ->
  authenticate cfg bad = Some (Status 401 "Missing authorization header").
Proof.
  unfold authenticate. intros [-> | [-> | (h & -> & P)]];
    [reflexivity | reflexivity |].
  rewrite P. now rewrite orb_true_r.
Qed.

Lemma authenticate_wrong_bearer cfg tok :
  tok <> authToken cfg ->
  authenticate cfg (bearer tok) = Some (Status 403 "Invalid token").
Proof.
  intros N. unfold authenticate, bearer. cbn [authorization].
  assert (P : prefix "Bearer " ("Bearer " ++ tok) = true).
  { simpl. now destruct tok. }
  assert (S : substring 7 (String.length ("Bearer " ++ tok) - 7)
                ("Bearer " ++ tok) = tok).
  { rewrite length_append. change (String.length "Bearer ") with 7%nat.
    replace (7 + String.length tok - 7)%nat
      with (String.length tok) by lia.
    exact (substring_suffix "Bearer " tok). }
  rewrite P, S. change (("Bearer " ++ tok =? "")%string) with false.
  apply String.eqb_neq in N. now rewrite N.
Qed.




(* ===================================================================== *)
(** ** More on escapeXml                                                  *)
(* ===================================================================== *)

Lemma escape_chain_no_markup s : clean_value (escape_chain s).
Proof.
  unfold clean_value.
  repeat split;
    match goal with
    | |- occurs ?a _ = false =>
        destruct (occurs a (escape_chain s)) eqn:O; [|reflexivity];
        apply escape_chain_clean in O; destruct O as (A & B & C & D);
        congruence
    end.
Qed.

Lemma ampersands_app_entity e rest :
  In e ["&amp;"; "&lt;"; "&gt;"; "&quot;"; "&apos;"] ->
  ampersands_start_entities (e ++ rest) = ampersands_start_entities rest.
Proof.
  simpl. intros [<-|[<-|[<-|[<-|[<-|[]]]]]]; reflexivity.
Qed.

Lemma escape_chain_ampersands s :
  ampersands_start_entities (escape_chain s) = true.
Proof.
  induction s as [|a s IH]; [reflexivity|].
  rewrite escape_chain_cons. unfold escape_char.
  case_char a amp; [rewrite ampersands_app_entity; simpl; tauto|].
  case_char a lt; [rewrite ampersands_app_entity; simpl; tauto|].
  case_char a gt; [rewrite ampersands_app_entity; simpl; tauto|].
  case_char a quot; [rewrite ampersands_app_entity; simpl; tauto|].
  case_char a apos; [rewrite ampersands_app_entity; simpl; tauto|].
  cbn [append ampersands_start_entities]. now rewrite E, IH.
Qed.

(** X1. What escapeXml returns for a string holds no angle bracket, quote
    or apostrophe, and each of its ampersands starts one of the five
    entities. *)
Theorem escapeXml_output_is_attribute_text (s : string) :
  exists e,
    escapeXml (JStr s) = Return e
    /\ occurs lt e = false /\ occurs gt e = false
    /\ occurs quot e = false /\ occurs apos e = false
    /\ ampersands_start_entities e = true.
Proof.
  exists (escape_chain s). split; [apply escapeXml_string|].
  destruct (escape_chain_no_markup s) as (A & B & C & D).
  repeat split; auto. apply escape_chain_ampersands.
Qed.

Lemma escape_char_length a :
  String.length (escape_char a)
  = (1 + (if Ascii.eqb a amp then 4 else 0)
     + (if Ascii.eqb a lt then 3 else 0)
     + (if Ascii.eqb a gt then 3 else 0)
     + (if Ascii.eqb a quot then 5 else 0)
     + (if Ascii.eqb a apos then 5 else 0))%nat.
Proof.
  unfold escape_char.
  case_char a amp; [reflexivity|].
  case_char a lt; [reflexivity|].
  case_char a gt; [reflexivity|].
  case_char a quot; [reflexivity|].
  case_char a apos; reflexivity.
Qed.

Lemma escape_chain_length s :
  String.length (escape_chain s)
  = (String.length s + 4 * count_occ_char amp s
     + 3 * count_occ_char lt s + 3 * count_occ_char gt s
     + 5 * count_occ_char quot s + 5 * count_occ_char apos s)%nat.
Proof.
  induction s as [|a s IH]; [reflexivity|].
  rewrite escape_chain_cons, length_append, escape_char_length, IH.
  cbn [String.length count_occ_char].
  destruct (Ascii.eqb a amp), (Ascii.eqb a lt), (Ascii.eqb a gt),
    (Ascii.eqb a quot), (Ascii.eqb a apos); lia.
Qed.

Lemma escape_chain_length_bound s :
  (String.length (escape_chain s) <= 6 * String.length s)%nat.
Proof.
  induction s as [|a s IH]; [simpl; lia|].
  rewrite escape_chain_cons, length_append, escape_char_length.
  cbn [String.length].
  case_char a amp; [simpl; lia|].
  case_char a lt; [simpl; lia|].
  case_char a gt; [simpl; lia|].
  case_char a quot; [simpl; lia|].
  case_char a apos; simpl; lia.
Qed.

(** X2. The escaped text is longer than the string by four code units per
    ampersand, three per angle bracket and five per quote or apostrophe;
    so it is never shorter, and at most six times as long. *)
Theorem escapeXml_length (s : string) :
  exists e,
    escapeXml (JStr s) = Return e
    /\ String.length e
       = (String.length s + 4 * count_occ_char amp s
          + 3 * count_occ_char lt s + 3 * count_occ_char gt s
          + 5 * count_occ_char quot s + 5 * count_occ_char apos s)%nat
    /\ (String.length s <= String.length e <= 6 * String.length s)%nat.
Proof.
  exists (escape_chain s). split; [apply escapeXml_string|].
  pose proof (escape_chain_length s) as L.
  pose proof (escape_chain_length_bound s) as B.
  split; [exact L | lia].
Qed.

Lemma no_metachar_counts s :
  no_metachar s = true <->
  (count_occ_char amp s + count_occ_char lt s + count_occ_char gt s
   + count_occ_char quot s + count_occ_char apos s = 0)%nat.
Proof.
  induction s as [|a s IH]; [simpl; tauto|].
  cbn [no_metachar count_occ_char].
  destruct (Ascii.eqb a amp), (Ascii.eqb a lt), (Ascii.eqb a gt),
    (Ascii.eqb a quot), (Ascii.eqb a apos); simpl;
    try (split; [discriminate | lia]).
  rewrite IH. lia.
Qed.

Lemma escape_chain_no_metachar s :
  no_metachar s = true -> escape_chain s = s.
Proof.
  induction s as [|a s IH]; [reflexivity|].
  cbn [no_metachar]. rewrite !andb_true_iff, !negb_true_iff.
  intros (((((A & B) & C) & D) & E) & F).
  rewrite escape_chain_cons, (IH F). unfold escape_char.
  now rewrite A, B, C, D, E.
Qed.

(** X3. escapeXml returns a string unchanged exactly when the string
    holds none of the five metacharacters. *)
Theorem escapeXml_identity_iff_no_metachar (s : string) :
  escapeXml (JStr s) = Return s <-> no_metachar s = true.
Proof.
  rewrite escapeXml_string. split.
  - intros H. pose proof (escape_chain_length s) as L.
    injection H as H. rewrite H in L.
    apply no_metachar_counts. lia.
  - intros H. now rewrite escape_chain_no_metachar.
Qed.

(** X4. escapeXml never maps two different strings to the same text. *)
Theorem escapeXml_injective (s1 s2 : string) :
  s1 <> s2 -> escapeXml (JStr s1) <> escapeXml (JStr s2).
Proof.
  intros N H. rewrite !escapeXml_string in H. injection H as H. apply N.
  rewrite <- (unescape_escape_fuel s1 _ (Nat.le_refl _)).
  rewrite <- (unescape_escape_fuel s2 _ (Nat.le_refl _)).
  now rewrite H.
Qed.

Lemma escapeXml_injective_witness :
  escapeXml (JStr "<") <> escapeXml (JStr "&lt;").
Proof.
  apply (escapeXml_injective "<" "&lt;"). discriminate.
Defined.

(* ===================================================================== *)
(** ** More on generateXml                                                *)
(* ===================================================================== *)

Lemma bind_assoc {A B C : Type} (c : completion A)
      (f : A -> completion B) (g : B -> completion C) :
  bind (bind c f) g = bind c (fun a => bind (f a) g).
Proof. now destruct c. Qed.

Lemma render_commands_append (a b : list command) :
  render_commands (a ++ b)
  = let! la := render_commands a in
    let! lb := render_commands b in
    Return (la ++ lb)%list.
Proof.
  induction a as [|c a IH]; simpl.
  - now destruct (render_commands b).
  - destruct (render_command c) as [l|e]; cbn [bind]; [|reflexivity].
    rewrite IH. destruct (render_commands a) as [la|e]; cbn [bind];
      [|reflexivity].
    destruct (render_commands b) as [lb|e]; cbn [bind]; [|reflexivity].
    now destruct l.
Qed.

(** X5. The script of two command lists put together holds the lines of
    the first followed by the lines of the second; when one of them
    throws, the throw met first, in order, is the one that comes out. *)
Theorem generateXml_app (a b : list command) :
  generateXml (a ++ b)
  = let! la := render_commands a in
    let! lb := render_commands b in
    Return (join_lines ([xml_header; "<autorun>"] ++ la ++ lb
                        ++ ["</autorun>"])%list).
Proof.
  unfold generateXml. rewrite render_commands_append.
  destruct (render_commands a) as [la|e]; cbn [bind]; [|reflexivity].
  destruct (render_commands b) as [lb|e]; cbn [bind]; [|reflexivity].
  now rewrite <- app_assoc.
Qed.

Lemma has_known_tag_false c :
  has_known_tag c = false -> render_command c = Return None.
Proof.
  unfold has_known_tag, known_tags. cbn [existsb].
  rewrite !orb_false_iff.
  intros (T1 & T2 & T3 & T4 & T5 & T6 & T7 & T8 & T9 & T10 & T11 & T12
          & T13 & T14 & T15 & _).
  unfold render_command.
  now rewrite T1, T2, T3, T4, T5, T6, T7, T8, T9, T10, T11, T12, T13, T14,
    T15.
Qed.

(** X6. A command whose type is none of the fifteen tags, or no string at
    all, is skipped: the script is the one rendered without it, whatever
    its other fields hold. *)
Theorem generateXml_skips_unknown (a b : list command) (c : command) :
  has_known_tag c = false ->
  generateXml (a ++ c :: b) = generateXml (a ++ b).
Proof.
  intros H. unfold generateXml.
  rewrite !render_commands_append. cbn [render_commands].
  rewrite (has_known_tag_false c H). cbn [bind].
  destruct (render_commands a); cbn [bind]; [|reflexivity].
  now destruct (render_commands b).
Qed.

Lemma generateXml_skips_unknown_witness :
  generateXml ([cmd_of_type "check"]
               ++ with_file (JNum 7) (cmd_of_type "openmodels")
               :: [cmd_of_type "exit"])
  = Return (join_lines [xml_header; "<autorun>"; "  <check />";
                        "  <exit />"; "</autorun>"]).
Proof.
  rewrite (generateXml_skips_unknown [cmd_of_type "check"]
             [cmd_of_type "exit"]
             (with_file (JNum 7) (cmd_of_type "openmodels")) eq_refl).
  reflexivity.
Defined.

Lemma escapeXml_throws v :
  truthy v = true -> (forall s, v <> JStr s) ->
  escapeXml v = Throw (TypeError "str.replace is not a function").
Proof.
  intros T N. unfold escapeXml. rewrite T. simpl.
  destruct v; try reflexivity. now destruct (N s).
Qed.

Lemma render_command_throws tag c :
  In tag file_tags -> type c = JStr tag ->
  truthy (file c) = true -> (forall s, file c <> JStr s) ->
  render_command c = Throw (TypeError "str.replace is not a function").
Proof.
  intros Hin Hty T N. unfold render_command, is_type, file_element.
  rewrite Hty, (escapeXml_throws _ T N). simpl in Hin.
  repeat destruct Hin as [<-|Hin]; try contradiction; reflexivity.
Qed.

(* ===================================================================== *)
(** ** More on the process supervisor                                     *)
(* ===================================================================== *)

Section SupervisorMore.
Variable path_join : string -> string -> string.
Variable cfg : config.


Lemma handle_invariant e j :
  job_invariant cfg j -> job_invariant cfg (handle cfg e j).
Proof.
  destruct j as [i x o er t sg p cl d]. unfold job_invariant. simpl.
  intros (P & A & S).
  destruct e as [chunk|chunk| |c b|m]; simpl.
  - auto.
  - auto.
  - unfold on_timeout. simpl. destruct t; simpl; auto.
    destruct (A eq_refl) as [-> ->]. simpl.
    destruct cl; [|discriminate]. simpl.
    split; [reflexivity|]. split; [discriminate|]. right. auto.
  - assert (Q : forall s,
               match p with None => Some s | Some old => Some old end
               = hd_error (cl ++ [s])).
    { intros s. subst p. now destruct cl. }
    unfold on_close, clearTimeout, unlinkSync. simpl.
    destruct t; simpl.
    + destruct (A eq_refl) as [-> ->].
      destruct (negb (keepXmlFiles cfg)), (b || negb d),
        c as [[| |]|]; simpl; (split; [apply Q|]);
        (split; [discriminate | left; reflexivity]).
    + destruct (negb (keepXmlFiles cfg)), (b || negb d),
        c as [[| |]|]; simpl; (split; [apply Q|]);
        (split; [discriminate|]);
        (destruct S as [S|(S & T & R)]; [now left | discriminate]).
    + destruct (negb (keepXmlFiles cfg)), (b || negb d),
        c as [[| |]|]; simpl; (split; [apply Q|]);
        (split; [discriminate|]);
        (destruct S as [S|(S & T & R)];
         [now left | right; subst p; rewrite R; auto]).
  - assert (Q : forall s,
               match p with None => Some s | Some old => Some old end
               = hd_error (cl ++ [s])).
    { intros s. subst p. now destruct cl. }
    unfold on_error, clearTimeout. simpl.
    destruct t; simpl; (split; [apply Q|]); (split; [discriminate|]).
    + destruct (A eq_refl) as [_ ->]. now left.
    + destruct S as [S|(S & T & R)]; [now left | discriminate].
    + destruct S as [S|(S & T & R)];
        [now left | right; subst p; rewrite R; auto].
Qed.

Lemma run_invariant es : forall j,
  job_invariant cfg j -> job_invariant cfg (run cfg es j).
Proof.
  induction es as [|e es IH]; intros j H; simpl; auto.
  apply IH. now apply handle_invariant.
Qed.

Lemma launch_invariant uuid commands w j0 :
  launch path_join cfg uuid commands w = Return j0 -> job_invariant cfg j0.
Proof.
  unfold launch. destruct (generateXml commands); simpl; [|discriminate].
  destruct w; [discriminate|]. intros [= <-]. unfold job_invariant. simpl.
  split; [reflexivity|]. split; [auto | now left].
Qed.

(** X9. Whatever the events, a launched job is sent no signal or exactly
    one SIGTERM; and one was sent only if the job is settled as timed
    out. *)
Theorem sigterm_at_most_once uuid commands w j0 es :
  launch path_join cfg uuid commands w = Return j0 ->
  signals (run cfg es j0) = []
  \/ (signals (run cfg es j0) = [SIGTERM]
      /\ executeAutorun path_join cfg uuid commands w es
         = Some (Rejected (timeout_error cfg))).
Proof.
  intros L. destruct (run_invariant es j0 (launch_invariant _ _ _ _ L))
    as (_ & _ & [S|(S & _ & P)]); [now left|].
  right. split; [exact S|]. unfold executeAutorun. now rewrite L.
Qed.

Lemma handle_keeps_script e j :
  keepXmlFiles cfg = true ->
  script_on_disk (handle cfg e j) = script_on_disk j.
Proof.
  intros K. destruct j as [i x o er t sg p cl d].
  destruct e as [chunk|chunk| |c b|m]; simpl; auto.
  - unfold on_timeout. simpl. now destruct t.
  - unfold on_close, clearTimeout. rewrite K. simpl.
    destruct t, c as [[| |]|]; reflexivity.
  - unfold on_error, clearTimeout. simpl. now destruct t.
Qed.

(** X10. With keepXmlFiles set, no event removes the script file: it is
    on disk after every trace of a launched job. *)
Theorem keepXmlFiles_keeps_script uuid commands j0 es :
  keepXmlFiles cfg = true ->
  launch path_join cfg uuid commands false = Return j0 ->
  script_on_disk (run cfg es j0) = true.
Proof.
  intros K L. rewrite (launch_state _ _ _ _ _ L).
  assert (G : forall j, script_on_disk (run cfg es j) = script_on_disk j).
  { induction es as [|e es' IH]; intros j; simpl; auto.
    rewrite IH. now apply handle_keeps_script. }
  now rewrite G.
Qed.

(** X11. A job fed only output until the process emits an error is
    rejected with the start failure and the message of the error; its
    timer is cleared, so no event that follows sends a signal; and the
    rejection stands whatever follows. *)
Theorem spawn_failure_rejects uuid commands before message later j0 :
  launch path_join cfg uuid commands false = Return j0 ->
  forallb is_data before = true ->
  let j := run cfg (before ++ [ProcError message]) j0 in
  timer j = TimerCleared
  /\ promise j = Some (Rejected (Error ("Failed to start Solibri: "
                                        ++ message)))
  /\ promise (run cfg later j) = promise j
  /\ signals (run cfg later j) = [].
Proof.
  intros L D j. pose proof (launch_state _ _ _ _ _ L) as E0. subst j0.
  destruct (run_data cfg before
              (mkJob uuid (path_join (autorunDir cfg) (uuid ++ ".xml"))
                 "" "" TimerArmed [] None [] true) D)
    as (_ & _ & _ & _ & T & S & P & _ & _).
  simpl in T, S, P.
  assert (J : j = on_error message
                    (run cfg before
                       (mkJob uuid
                          (path_join (autorunDir cfg) (uuid ++ ".xml"))
                          "" "" TimerArmed [] None [] true))).
  { subst j. now rewrite run_app. }
  assert (TJ : timer j = TimerCleared).
  { rewrite J. unfold on_error, clearTimeout. rewrite T. reflexivity. }
  assert (PJ : promise j = Some (Rejected (Error ("Failed to start Solibri: "
                                                  ++ message)))).
  { rewrite J. unfold on_error, reject. apply settle_pending.
    now rewrite promise_clearTimeout. }
  assert (SJ : signals j = []).
  { rewrite J. unfold on_error, clearTimeout. rewrite T. simpl. exact S. }
  split; [exact TJ|]. split; [exact PJ|]. split.
  - rewrite PJ. now apply run_settled.
  - rewrite run_signals; [exact SJ|]. rewrite TJ. discriminate.
Qed.

(** X12. Output that arrives after a clean exit, and any other late
    event, leaves the result as it was settled: success with the output
    captured up to the close event. *)
Theorem late_events_keep_success uuid commands before unlink_throws later :
  (exists j0, launch path_join cfg uuid commands false = Return j0) ->
  forallb is_data before = true ->
  executeAutorun path_join cfg uuid commands false
    (before ++ ProcClose (Some 0%Z) unlink_throws :: later)
  = Some (Resolved (mkResult uuid true 0 (captured_stdout before)
                             (captured_stderr before))).
Proof.
  intros [j0 L] D. unfold executeAutorun. rewrite L.
  rewrite (launch_state _ _ _ _ _ L).
  destruct (run_data cfg before
              (mkJob uuid (path_join (autorunDir cfg) (uuid ++ ".xml"))
                 "" "" TimerArmed [] None [] true) D)
    as (O & R & I & _ & T & _ & P & _ & _).
  simpl in O, R, I, T, P.
  rewrite run_app. cbn [run handle]. apply run_settled.
  destruct (on_close_pending cfg (Some 0%Z) unlink_throws _ T P)
    as (_ & _ & PJ).
  now rewrite PJ, O, R, I.
Qed.

(** X13. When the process of a timed-out job does close, with deletion
    enabled and the unlink going through, the script file is removed by
    that close event, and the result stays the timeout. *)
Theorem late_close_removes_script uuid commands before mid c j0 :
  keepXmlFiles cfg = false ->
  launch path_join cfg uuid commands false = Return j0 ->
  forallb is_data before = true ->
  forallb (fun e => negb (is_close e)) mid = true ->
  let j := run cfg (before ++ TimerExpires :: mid ++ [ProcClose c false])
               j0 in
  script_on_disk j = false
  /\ promise j = Some (Rejected (timeout_error cfg)).
Proof.
  intros K L D M j.
  assert (E : j = handle cfg (ProcClose c false)
                    (run cfg mid (run cfg (before ++ [TimerExpires]) j0))).
  { subst j. rewrite !run_app. cbn [run]. now rewrite run_app. }
  assert (P : promise (run cfg (before ++ [TimerExpires]) j0)
              = Some (Rejected (timeout_error cfg))).
  { rewrite (launch_state _ _ _ _ _ L).
    destruct (run_data cfg before
                (mkJob uuid (path_join (autorunDir cfg) (uuid ++ ".xml"))
                   "" "" TimerArmed [] None [] true) D)
      as (_ & _ & _ & _ & T & _ & P & _ & _).
    simpl in T, P. rewrite run_app. simpl. unfold on_timeout. rewrite T.
    now apply settle_pending. }
  split.
  - rewrite E. apply close_deletes_script; [exact K|].
    rewrite script_stays_without_close by exact M.
    rewrite script_stays_without_close.
    + now rewrite (launch_state _ _ _ _ _ L).
    + rewrite forallb_app. simpl. rewrite andb_true_r.
      clear -D. induction before as [|e es IH]; simpl in *; auto.
      apply andb_true_iff in D as [De Des]. rewrite (IH Des).
      now destruct e.
  - rewrite E. apply handle_settled. now apply run_settled.
Qed.
End SupervisorMore.

(* ===================================================================== *)
(** ** More on listAssets                                                 *)
(* ===================================================================== *)

(** X14. For a known type whose configured path exists but is a file, not
    a directory, listAssets does not return the empty list: it throws. *)
Theorem listAssets_throws_on_a_file
        (path_join : string -> string -> string) cfg (fs : filesystem)
        ty dir :
  dirs cfg ty = Own dir -> dir <> "" -> fs dir = Some FsFile ->
  exists e, listAssets path_join cfg fs ty = Throw e.
Proof.
  intros D N F. unfold listAssets, existsSync, readdirSync.
  rewrite D, F. apply String.eqb_neq in N. rewrite N. simpl. eauto.
Qed.

Lemma last_char_app p x :
  x <> "" -> last_char (p ++ x) = last_char x.
Proof.
  intros N. induction p as [|a p IH]; [reflexivity|].
  cbn [append last_char]. rewrite IH.
  destruct (p ++ x) eqn:E; [|reflexivity].
  destruct p; simpl in E; [contradiction | discriminate].
Qed.

Lemma has_extension_last_char ty f :
  has_extension (type_extensions ty) f = true ->
  exists ext, In ext (type_extensions ty)
              /\ last_char (toLowerCase f) = last_char ext.
Proof.
  unfold has_extension. rewrite existsb_exists.
  intros (ext & I & E). exists ext. split; [exact I|].
  apply endsWith_spec in E as [p E]. rewrite E.
  apply last_char_app. intros ->.
  revert I. unfold type_extensions, extensions, inherited_or_missing.
  repeat match goal with
         | |- context [if ?b then _ else _] => destruct b
         end; simpl; intuition discriminate.
Qed.

Lemma type_extensions_known ty ext :
  In ext (type_extensions ty) -> In ty known_types.
Proof.
  unfold type_extensions, extensions, known_types.
  destruct (String.eqb ty "classifications") eqn:E1;
    [apply String.eqb_eq in E1; subst; simpl; tauto|].
  destruct (String.eqb ty "rulesets") eqn:E2;
    [apply String.eqb_eq in E2; subst; simpl; tauto|].
  destruct (String.eqb ty "ito") eqn:E3;
    [apply String.eqb_eq in E3; subst; simpl; tauto|].
  destruct (String.eqb ty "templates") eqn:E4;
    [apply String.eqb_eq in E4; subst; simpl; tauto|].
  unfold inherited_or_missing.
  destruct (existsb _ _); simpl; tauto.
Qed.

(** X15. The extensions of the four asset types do not overlap: a name
    that listAssets accepts for one type is accepted for no other. *)
Theorem asset_types_do_not_overlap ty1 ty2 f :
  has_extension (type_extensions ty1) f = true ->
  has_extension (type_extensions ty2) f = true ->
  ty1 = ty2.
Proof.
  intros H1 H2.
  apply has_extension_last_char in H1 as (e1 & I1 & L1).
  apply has_extension_last_char in H2 as (e2 & I2 & L2).
  rewrite L1 in L2. clear L1.
  pose proof (type_extensions_known _ _ I1) as K1.
  pose proof (type_extensions_known _ _ I2) as K2.
  simpl in K1, K2.
  repeat destruct K1 as [<-|K1]; try contradiction;
    repeat destruct K2 as [<-|K2]; try contradiction;
    try reflexivity; simpl in I1, I2;
    repeat destruct I1 as [<-|I1]; try contradiction;
    repeat destruct I2 as [<-|I2]; try contradiction;
    discriminate.
Qed.

(* ===================================================================== *)
(** ** More on waitUntilIdle                                              *)
(* ===================================================================== *)

Section PollingMore.
Variable world : nat -> round.
Variables timeoutMs pollIntervalMs start : Z.

(** X16. With a deadline that is zero or negative, waitUntilIdle throws
    the timeout error at once: it polls nothing and pauses never. *)
Theorem waitUntilIdle_without_time fuel :
  timeoutMs <= 0 ->
  waitUntilIdle world (Some timeoutMs) (Some pollIntervalMs) start (S fuel)
  = Some (mkOutcome (Throw (idle_timeout_error timeoutMs)) 0 [] start).
Proof.
  intros H. unfold waitUntilIdle, waitUntilIdle_from. simpl.
  destruct (start - start <? timeoutMs) eqn:G; [|reflexivity].
  apply Z.ltb_lt in G. lia.
Qed.

Lemma wait_loop_polls fuel : forall i now slept o,
  Z.of_nat i * timer_delay pollIntervalMs <= now - start ->
  (i = 0%nat
   \/ (Z.of_nat i - 1) * timer_delay pollIntervalMs < timeoutMs) ->
  wait_loop world timeoutMs pollIntervalMs start fuel i now slept = Some o ->
  polls o = 0%nat
  \/ (Z.of_nat (polls o) - 1) * timer_delay pollIntervalMs < timeoutMs.
Proof.
  induction fuel as [|fuel IH]; intros i now slept o Hnow Hi; simpl;
    [discriminate|].
  pose proof (timer_delay_positive pollIntervalMs) as Pos.
  assert (Si : (Z.of_nat (S i) - 1) * timer_delay pollIntervalMs
               = Z.of_nat i * timer_delay pollIntervalMs)
    by (f_equal; lia).
  destruct (now - start <? timeoutMs) eqn:G.
  - apply Z.ltb_lt in G.
    destruct (isBusy (reply (world i))) as [[|]|e].
    + apply IH.
      * pose proof (N2Z.is_nonneg (latency (world i))).
        pose proof (N2Z.is_nonneg (lateness (world i))).
        replace (Z.of_nat (S i)) with (Z.of_nat i + 1) by lia.
        rewrite Z.mul_add_distr_r. lia.
      * right. rewrite Si. lia.
    + intros [= <-]. cbn [polls]. right. rewrite Si. lia.
    + intros [= <-]. cbn [polls]. right. rewrite Si. lia.
  - intros [= <-]. cbn [polls]. destruct Hi as [->|Hi]; [now left | now right].
Qed.

(** X17. However a call ends, each poll but the last was followed by a
    pause of at least the timer delay inside the deadline: the polls
    made, less one, times that delay stay below the timeout. *)
Theorem waitUntilIdle_bounds_polls fuel o :
  waitUntilIdle world (Some timeoutMs) (Some pollIntervalMs) start fuel
  = Some o ->
  polls o = 0%nat
  \/ (Z.of_nat (polls o) - 1) * timer_delay pollIntervalMs < timeoutMs.
Proof.
  unfold waitUntilIdle, waitUntilIdle_from.
  apply wait_loop_polls; [simpl; lia | now left].
Qed.

Lemma wait_loop_ideal fuel : forall i slept o,
  instantaneous world ->
  (forall k, isBusy (reply (world k)) = Return true) ->
  1 <= pollIntervalMs <= 2147483647 ->
  0 < timeoutMs ->
  (i = 0%nat \/ (Z.of_nat i - 1) * pollIntervalMs < timeoutMs) ->
  wait_loop world timeoutMs pollIntervalMs start fuel i
    (start + Z.of_nat i * pollIntervalMs) slept = Some o ->
  wait_result o = Throw (idle_timeout_error timeoutMs)
  /\ timeoutMs <= finished_at o - start < timeoutMs + pollIntervalMs.
Proof.
  induction fuel as [|fuel IH]; intros i slept o I B P T Hi; simpl;
    [discriminate|].
  destruct (start + Z.of_nat i * pollIntervalMs - start <? timeoutMs) eqn:G.
  - rewrite B. destruct (I i) as [-> ->].
    assert (D : timer_delay pollIntervalMs = pollIntervalMs).
    { unfold timer_delay.
      destruct (pollIntervalMs <? 1) eqn:A; [apply Z.ltb_lt in A; lia|].
      destruct (2147483647 <? pollIntervalMs) eqn:C;
        [apply Z.ltb_lt in C; lia | reflexivity]. }
    rewrite D.
    assert (Si : Z.of_nat (S i) * pollIntervalMs
                 = Z.of_nat i * pollIntervalMs + pollIntervalMs).
    { replace (Z.of_nat (S i)) with (Z.of_nat i + 1) by lia.
      rewrite Z.mul_add_distr_r. lia. }
    replace (start + Z.of_nat i * pollIntervalMs + Z.of_N 0
             + pollIntervalMs + Z.of_N 0)
      with (start + Z.of_nat (S i) * pollIntervalMs) by lia.
    apply IH; auto. right. apply Z.ltb_lt in G.
    replace (Z.of_nat (S i) - 1) with (Z.of_nat i) by lia. lia.
  - intros [= <-]. cbn [wait_result finished_at]. split; [reflexivity|].
    apply Z.ltb_ge in G. destruct Hi as [->|Hi].
    + simpl in *. lia.
    + rewrite Z.mul_sub_distr_r in Hi. lia.
Qed.

(** X18. Against a status endpoint that is busy for ever and answers at
    once, with timers that fire on time, a positive deadline and an
    interval within the timer range, waitUntilIdle throws the timeout
    error no earlier than the deadline and less than one interval after
    it. *)
Theorem waitUntilIdle_times_out_within_one_interval :
  instantaneous world ->
  (forall k, isBusy (reply (world k)) = Return true) ->
  1 <= pollIntervalMs <= 2147483647 ->
  0 < timeoutMs ->
  exists n o,
    (forall fuel, (n < fuel)%nat ->
       waitUntilIdle world (Some timeoutMs) (Some pollIntervalMs) start fuel
       = Some o)
    /\ wait_result o = Throw (idle_timeout_error timeoutMs)
    /\ timeoutMs <= finished_at o - start < timeoutMs + pollIntervalMs.
Proof.
  intros I B P T.
  destruct (wait_loop_spec world timeoutMs pollIntervalMs start
              (Z.to_nat timeoutMs) 0%nat) as (o & Ho & _).
  - cbn [clock_at].
    replace (timeoutMs - (start - start)) with timeoutMs by lia. lia.
  - intros j Hj. lia.
  - exists (Z.to_nat timeoutMs), o. split; [exact Ho|].
    apply (wait_loop_ideal (S (Z.to_nat timeoutMs)) 0%nat [] o); auto.
    replace (start + Z.of_nat 0 * pollIntervalMs) with start by lia.
    apply Ho. lia.
Qed.
End PollingMore.

(* ===================================================================== *)
(** ** The REST request                                                   *)
(* ===================================================================== *)

(** X19. request returns a value only for a response that is ok: parsed
    JSON exactly when the content type is there, is not empty and
    includes application/json, the text of the body otherwise. *)
Theorem request_returns_only_when_ok
        {J : Type} (fetched : RestClient.attempt (RestClient.http_response J))
        (p : RestClient.payload J) :
  RestClient.request fetched = Return p ->
  exists r,
    fetched = RestClient.Done r /\ RestClient.resp_ok r = true
    /\ match p with
       | RestClient.Json j =>
           RestClient.resp_json r = RestClient.Done j
           /\ exists ct, RestClient.resp_content_type r = Some ct
                         /\ ct <> ""
                         /\ RestClient.includes ct "application/json" = true
       | RestClient.Text t =>
           RestClient.resp_text r = RestClient.Done t
           /\ forall ct, RestClient.resp_content_type r = Some ct ->
                         ct = ""
                         \/ RestClient.includes ct "application/json" = false
       end.
Proof.
  assert (C : forall (A : Type) e c (a : A),
             RestClient.on_catch e c <> Return a).
  { intros A e [c|] a; unfold RestClient.on_catch;
      [destruct (String.eqb c "ECONNREFUSED")|]; discriminate. }
  unfold RestClient.request.
  destruct fetched as [r|e c]; [|intros H; (first [discriminate H | now apply C in H])].
  destruct r as [ok st ct tx js]; simpl.
  destruct ok; simpl.
  2:{ destruct tx; intros H; (first [discriminate H | now apply C in H]). }
  intros H. eexists. split; [reflexivity|]. split; [reflexivity|]. simpl.
  destruct ct as [ct|].
  - destruct (String.eqb ct "") eqn:E; simpl in H.
    + destruct tx as [t|e c]; [|(first [discriminate H | now apply C in H])]. injection H as <-.
      split; [reflexivity|]. intros ct' [= <-]. left.
      now apply String.eqb_eq.
    + destruct (RestClient.includes ct "application/json") eqn:I.
      * destruct js as [j|e c]; [|(first [discriminate H | now apply C in H])]. injection H as <-.
        split; [reflexivity|]. exists ct. repeat split; auto.
        now apply String.eqb_neq.
      * destruct tx as [t|e c]; [|(first [discriminate H | now apply C in H])]. injection H as <-.
        split; [reflexivity|]. intros ct' [= <-]. now right.
  - destruct tx as [t|e c]; [|(first [discriminate H | now apply C in H])]. injection H as <-.
    split; [reflexivity|]. intros ct' [=].
Qed.

(** X20. What the first status reply does to waitUntilIdle, the deadline
    being positive: a response that is not ok makes it throw the API
    error with the status and the body; a refused connection makes it
    throw the not-running error; an ok response that is not JSON counts
    as idle.  Each ends the call at the first poll, without a pause. *)
Theorem waitUntilIdle_first_reply
        (fetches : nat -> RestClient.attempt
                            (RestClient.http_response RestClient.status_json)
                          * N * N)
        timeoutMs pollIntervalMs start fuel f lat late :
  0 < timeoutMs -> fetches 0%nat = (f, lat, late) ->
  let run_ :=
    waitUntilIdle (world_of fetches) (Some timeoutMs) (Some pollIntervalMs)
      start (S fuel) in
  (forall st ct body js,
      f = RestClient.Done
            (RestClient.mkResponse false st ct (RestClient.Done body) js) ->
      run_ = Some (mkOutcome (Throw (RestClient.api_error st body)) 1 []
                             (start + Z.of_N lat)))
  /\ (forall e,
        f = RestClient.Failed e (Some "ECONNREFUSED") ->
        run_ = Some (mkOutcome (Throw RestClient.not_running_error) 1 []
                               (start + Z.of_N lat)))
  /\ (forall st body js,
        f = RestClient.Done
              (RestClient.mkResponse true st None (RestClient.Done body) js) ->
        run_ = Some (mkOutcome (Return true) 1 [] (start + Z.of_N lat))).
Proof.
  intros T F run_. subst run_.
  unfold waitUntilIdle, waitUntilIdle_from. cbn [wait_loop].
  assert (G : (start - start <? timeoutMs) = true)
    by (apply Z.ltb_lt; lia).
  rewrite G. unfold world_of. rewrite F. cbn [reply latency].
  repeat split; intros; subst f; reflexivity.
Qed.

(* ===================================================================== *)
(** ** More on the transport endpoints                                    *)
(* ===================================================================== *)

Lemma prefix_app p : forall s, prefix p s = true -> exists r, s = p ++ r.
Proof.
  induction p as [|a p IH]; intros s H.
  - exists s. reflexivity.
  - destruct s as [|b s]; simpl in H; [discriminate|].
    destruct (ascii_dec a b) as [->|]; [|discriminate].
    destruct (IH s H) as [r ->]. now exists r.
Qed.

(** X21. authenticate lets a request through exactly when its
    Authorization header is the word Bearer, one space and the configured
    token, with nothing before or after. *)
Theorem authenticate_passes_iff cfg req :
  authenticate cfg req = None
  <-> authorization req = Some ("Bearer " ++ authToken cfg).
Proof.
  split; [|apply authenticate_bearer].
  unfold authenticate. destruct (authorization req) as [h|]; [|discriminate].
  destruct (String.eqb h "") eqn:E; [discriminate|]. simpl.
  destruct (prefix "Bearer " h) eqn:P; [|discriminate]. simpl.
  destruct (prefix_app _ _ P) as [r ->].
  assert (S : substring 7 (String.length ("Bearer " ++ r) - 7)
                ("Bearer " ++ r) = r).
  { rewrite length_append. change (String.length "Bearer ") with 7%nat.
    replace (7 + String.length r - 7)%nat with (String.length r) by lia.
    exact (substring_suffix "Bearer " r). }
  rewrite S.
  destruct (String.eqb r (authToken cfg)) eqn:T; [|discriminate].
  apply String.eqb_eq in T. now subst.
Qed.

Lemma first_key_delete t r k :
  first_key (registry_delete t r) = Some k -> k <> t.
Proof.
  induction r as [|[k' v] r IH]; simpl; [discriminate|].
  destruct (Nat.eqb k' t) eqn:E; simpl; [exact IH|].
  intros [= <-]. now apply Nat.eqb_neq.
Qed.

(** X22. Once a transport is deleted from the registry, POST /messages
    hands no request to it, whoever sends it. *)
Theorem disconnected_transport_gets_nothing cfg r t req :
  post_messages cfg (registry_delete t r) req <> Delivered t.
Proof.
  unfold post_messages.
  destruct (authenticate cfg req) as [refusal|] eqn:A.
  - destruct (authenticate_refusal _ _ _ A) as [->| ->]; discriminate.
  - destruct (first_key (registry_delete t r)) as [k|] eqn:F;
      [|discriminate].
    intros [= ->]. now apply first_key_delete in F.
Qed.

Lemma first_key_apply_op op r k :
  first_key r = Some k -> disconnects k op = false ->
  first_key (apply_op op r) = Some k.
Proof.
  intros F D. destruct op as [t server|t]; simpl in *.
  - now rewrite first_key_set, F.
  - destruct r as [|[k' v] r]; [discriminate|]. injection F as ->.
    simpl. rewrite Nat.eqb_sym in D. now rewrite D.
Qed.

(** X23. While the oldest session stays connected, every authenticated
    request to POST /messages goes to its transport, however many other
    sessions connect or disconnect in between. *)
Theorem oldest_session_gets_every_request cfg r k ops req :
  authorization req = Some ("Bearer " ++ authToken cfg) ->
  first_key r = Some k ->
  forallb (fun op => negb (disconnects k op)) ops = true ->
  post_messages cfg (apply_ops ops r) req = Delivered k.
Proof.
  intros A F D. unfold post_messages.
  rewrite (authenticate_bearer _ _ A).
  assert (G : first_key (apply_ops ops r) = Some k).
  { unfold apply_ops. revert r F.
    induction ops as [|op ops IH]; intros r F; simpl in *; [exact F|].
    apply andb_true_iff in D as [D1 D2]. apply negb_true_iff in D1.
    apply IH; [exact D2|]. now apply first_key_apply_op. }
  now rewrite G.
Qed.

(* ===================================================================== *)
(** ** The request handler of a session                                   *)
(* ===================================================================== *)


(* ===================================================================== *)
(** ** The scripts of the tool handlers                                   *)
(* ===================================================================== *)

Lemma render_commands_lines a b la lb :
  render_commands a = Return la -> render_commands b = Return lb ->
  render_commands (a ++ b) = Return (la ++ lb)%list.
Proof.
  intros A B. now rewrite render_commands_append, A, B.
Qed.

Lemma render_file_command tag s :
  In tag file_tags ->
  render_command (file_command tag (JStr s))
  = Return (Some (render_element (file_el tag s))).
Proof.
  intros I. unfold render_command, is_type, file_element, file_command.
  cbn [type file with_file cmd_of_type]. rewrite escapeXml_spec.
  simpl in I. repeat destruct I as [<-|I]; try contradiction;
    unfold render_element, file_el; norm_strings.
Qed.

Lemma render_file_commands tag l :
  In tag file_tags ->
  render_commands (map (file_command tag) (args l))
  = Return (map render_element (map (file_el tag) l)).
Proof.
  intros I. unfold args. induction l as [|s l IH]; [reflexivity|].
  cbn [map render_commands].
  now rewrite (render_file_command tag s I), IH.
Qed.

Lemma or_empty_args l : or_empty (opt_args l) = args (or_none l).
Proof. now destruct l. Qed.

Lemma clean_escape s : clean_value (spec_escape s).
Proof. rewrite <- escape_chain_spec. apply escape_chain_no_markup. Qed.

Lemma clean_file_el tag s : clean_elements [file_el tag s].
Proof.
  repeat constructor; cbn [snd file_el]; apply clean_escape.
Qed.

Lemma clean_file_els tag l : clean_elements (map (file_el tag) l).
Proof.
  induction l as [|s l IH]; [constructor|].
  constructor; [|exact IH]. repeat constructor; apply clean_escape.
Qed.

Lemma clean_plain_el tag : clean_elements [plain_el tag].
Proof. repeat constructor. Qed.

Lemma clean_given_attr label o :
  Forall (fun a : string * string => clean_value (snd a))
         (given_attr label o).
Proof.
  destruct o as [[|a s]|]; repeat constructor; apply clean_escape.
Qed.

Ltac file_tag := simpl; tauto.

Ltac optional_argument o :=
  destruct o as [[|? ?]|]; cbn [arg given truthy String.eqb negb].

(** X25. For arguments typed as its schema says, the two outputs and the
    classifications being optional, solibri_check_model renders this
    script: the model opened, then the classifications, then the
    rulesets, the check, a BCF 2.1 report when an output is given and
    not empty, the model saved when a path is given and not empty, and
    exit last; every path is written escaped, so that no attribute value
    holds markup. *)
Theorem check_model_script_is_clean
        modelPath rulesets classifications outputBcf outputSmc :
  generateXml
    (check_model_commands (JStr modelPath) (args rulesets)
       (opt_args classifications) (arg outputBcf) (arg outputSmc))
  = Return (spec_document (map render_element
      (check_model_elements modelPath rulesets classifications
         outputBcf outputSmc)))
  /\ clean_elements
       (check_model_elements modelPath rulesets classifications
          outputBcf outputSmc)
  /\ last (check_model_elements modelPath rulesets classifications
             outputBcf outputSmc) (plain_el "check")
     = plain_el "exit".
Proof.
  unfold check_model_commands, check_model_elements.
  rewrite or_empty_args. split; [|split].
  - apply generateXml_document. rewrite !map_app.
    apply render_commands_lines;
      [exact (render_file_commands "openmodel" [modelPath]
                ltac:(file_tag))|].
    apply render_commands_lines;
      [apply render_file_commands; file_tag|].
    apply render_commands_lines;
      [apply render_file_commands; file_tag|].
    apply render_commands_lines; [reflexivity|].
    apply render_commands_lines.
    { optional_argument outputBcf; try reflexivity.
      cbn [render_commands map].
      unfold render_command, is_type, file_command.
      cbn [type file version with_file with_version cmd_of_type
           String.eqb Ascii.eqb Bool.eqb].
      rewrite escapeXml_spec. unfold render_element. norm_strings. }
    apply render_commands_lines; [|reflexivity].
    optional_argument outputSmc; try reflexivity.
    exact (render_file_commands "savemodel" [String a s] ltac:(file_tag)).
  - unfold clean_elements.
    repeat (apply Forall_app; split).
    + apply clean_file_el.
    + apply clean_file_els.
    + apply clean_file_els.
    + apply clean_plain_el.
    + destruct (given outputBcf); [|constructor].
      repeat constructor; cbn [snd]; try apply clean_escape.
    + destruct (given outputSmc); [apply clean_file_el | constructor].
    + apply clean_plain_el.
  - rewrite !app_assoc. apply last_last.
Qed.

(** X26. For string arguments, the template, the takeoff name and the
    title being optional, solibri_quantity_takeoff renders this script:
    the model opened, the ITO definition opened, a takeoff that names the
    ITO when a name is given and not empty, a report to the Excel file
    with the template, the title and the name as attributes, each only
    when given and not empty, and exit; every value is written
    escaped. *)
Theorem quantity_takeoff_script_is_clean
        modelPath itoFile outputExcel templateFile itoName title_ :
  generateXml
    (quantity_takeoff_commands (JStr modelPath) (JStr itoFile)
       (JStr outputExcel) (arg templateFile) (arg itoName) (arg title_))
  = Return (spec_document (map render_element
      (quantity_takeoff_elements modelPath itoFile outputExcel
         templateFile itoName title_)))
  /\ clean_elements
       (quantity_takeoff_elements modelPath itoFile outputExcel
          templateFile itoName title_).
Proof.
  split.
  - apply generateXml_document.
    unfold quantity_takeoff_commands, quantity_takeoff_elements.
    cbn [render_commands map].
    rewrite (render_file_command "openmodel") by file_tag.
    rewrite (render_file_command "openito") by file_tag.
    cbn [bind].
    unfold render_command, is_type, with_name, cmd_of_type, given_attr.
    cbn [type file name templatefile title version snapshots
         String.eqb Ascii.eqb Bool.eqb].
    optional_argument templateFile; optional_argument itoName;
      optional_argument title_;
      rewrite ?escapeXml_spec; cbn [bind];
      unfold render_element, plain_el; norm_strings.
  - unfold quantity_takeoff_elements.
    apply (Forall_app _ [file_el "openmodel" modelPath]).
    split; [apply clean_file_el|].
    apply (Forall_app _ [file_el "openito" itoFile]).
    split; [apply clean_file_el|].
    apply Forall_cons; [apply clean_given_attr|].
    apply Forall_cons; [|apply clean_plain_el].
    cbn [snd]. apply Forall_app. split.
    + constructor; [apply clean_escape | constructor].
    + repeat (apply Forall_app; split); apply clean_given_attr.
Qed.

(** X27. For string arguments, the classifications being optional,
    solibri_create_model renders this script: every IFC file opened in
    the order given, then every classification, the model saved to the
    output path, and exit last; every path is written escaped.  With no
    IFC file and no classification it still saves and exits. *)
Theorem create_model_script_is_clean ifcFiles outputSmc classifications :
  generateXml
    (create_model_commands (args ifcFiles) (JStr outputSmc)
       (opt_args classifications))
  = Return (spec_document (map render_element
      (create_model_elements ifcFiles outputSmc classifications)))
  /\ clean_elements
       (create_model_elements ifcFiles outputSmc classifications)
  /\ create_model_elements [] outputSmc None
     = [file_el "savemodel" outputSmc; plain_el "exit"].
Proof.
  unfold create_model_commands, create_model_elements.
  rewrite or_empty_args. split; [|split; [|reflexivity]].
  - apply generateXml_document. rewrite !map_app.
    apply render_commands_lines;
      [apply render_file_commands; file_tag|].
    apply render_commands_lines;
      [apply render_file_commands; file_tag|].
    exact (render_commands_lines
             [file_command "savemodel" (JStr outputSmc)]
             [cmd_of_type "exit"] _ _
             (render_file_commands "savemodel" [outputSmc] ltac:(file_tag))
             eq_refl).
  - unfold clean_elements.
    repeat (apply Forall_app; split).
    + apply clean_file_els.
    + apply clean_file_els.
    + apply (Forall_app _ [file_el "savemodel" outputSmc]
                        [plain_el "exit"]).
      split; [apply clean_file_el | apply clean_plain_el].
Qed.

(** X28. For string arguments, the output being optional,
    solibri_update_model renders this script: the model opened, every
    IFC file as an update in the order given, the model saved to the
    output when one is given and is not empty and over the input model
    otherwise, and exit last; every path is written escaped. *)
Theorem update_model_script_is_clean smcPath ifcFiles outputSmc :
  generateXml
    (update_model_commands (JStr smcPath) (args ifcFiles) (arg outputSmc))
  = Return (spec_document (map render_element
      (update_model_elements smcPath ifcFiles outputSmc)))
  /\ clean_elements (update_model_elements smcPath ifcFiles outputSmc)
  /\ nth_error (update_model_elements smcPath ifcFiles outputSmc)
       (S (List.length ifcFiles))
     = Some (file_el "savemodel"
               (match outputSmc with
                | Some (String a s) => String a s
                | _ => smcPath
                end)).
Proof.
  unfold update_model_commands, update_model_elements.
  assert (J : js_or (arg outputSmc) (JStr smcPath)
              = JStr (match given outputSmc with
                      | Some s => s
                      | None => smcPath
                      end)).
  { unfold js_or. now optional_argument outputSmc. }
  rewrite J. split; [|split].
  - apply generateXml_document. rewrite !map_app.
    apply render_commands_lines;
      [exact (render_file_commands "openmodel" [smcPath] ltac:(file_tag))|].
    apply render_commands_lines;
      [apply render_file_commands; file_tag|].
    exact (render_commands_lines [file_command "savemodel" (JStr _)]
             [cmd_of_type "exit"] _ _
             (render_file_commands "savemodel" [_] ltac:(file_tag))
             eq_refl).
  - unfold clean_elements.
    repeat (apply Forall_app; split).
    + apply clean_file_el.
    + apply clean_file_els.
    + apply (Forall_app _ [file_el "savemodel" _] [plain_el "exit"]).
      split; [apply clean_file_el | apply clean_plain_el].
  - cbn [app nth_error].
    rewrite nth_error_app2 by (rewrite length_map; lia).
    rewrite length_map, Nat.sub_diag.
    now optional_argument outputSmc.
Qed.

(* ===================================================================== *)
(** ** The properties above at concrete inputs                            *)
(* ===================================================================== *)


Lemma sigterm_at_most_once_witness :
  signals (run sample_config [TimerExpires; TimerExpires; ProcClose None true]
             (mkJob "job-1" "autorun/job-1.xml" "" "" TimerArmed [] None []
                    true)) = []
  \/ (signals (run sample_config
                 [TimerExpires; TimerExpires; ProcClose None true]
                 (mkJob "job-1" "autorun/job-1.xml" "" "" TimerArmed [] None
                        [] true)) = [SIGTERM]
      /\ executeAutorun sample_join sample_config "job-1" example_commands
           false [TimerExpires; TimerExpires; ProcClose None true]
         = Some (Rejected (timeout_error sample_config))).
Proof.
  exact (sigterm_at_most_once sample_join sample_config "job-1"
           example_commands false _
           [TimerExpires; TimerExpires; ProcClose None true] eq_refl).
Defined.

Lemma keepXmlFiles_keeps_script_witness :
  script_on_disk (run keeping_config [ProcClose (Some 0) false]
                    (mkJob "job-1" "autorun/job-1.xml" "" "" TimerArmed []
                           None [] true)) = true.
Proof.
  exact (keepXmlFiles_keeps_script sample_join keeping_config "job-1"
           example_commands _ [ProcClose (Some 0) false] eq_refl eq_refl).
Defined.

Lemma spawn_failure_rejects_witness :
  promise (run sample_config ([] ++ [ProcError "spawn ENOENT"])
             (mkJob "job-1" "autorun/job-1.xml" "" "" TimerArmed [] None []
                    true))
  = Some (Rejected (Error "Failed to start Solibri: spawn ENOENT")).
Proof.
  exact (proj1 (proj2 (spawn_failure_rejects sample_join sample_config
                         "job-1" example_commands [] "spawn ENOENT" [] _
                         eq_refl eq_refl))).
Defined.

Lemma late_events_keep_success_witness :
  executeAutorun sample_join sample_config "job-1" example_commands false
    ([StdoutData "done"] ++ ProcClose (Some 0) false
     :: [StdoutData "late"; TimerExpires])
  = Some (Resolved (mkResult "job-1" true 0 "done" "")).
Proof.
  refine (late_events_keep_success sample_join sample_config "job-1"
            example_commands [StdoutData "done"] false
            [StdoutData "late"; TimerExpires] _ eq_refl).
  eexists. reflexivity.
Defined.

Lemma late_close_removes_script_witness :
  script_on_disk
    (run sample_config
       ([] ++ TimerExpires :: [StderrData "killed"] ++ [ProcClose None false])
       (mkJob "job-1" "autorun/job-1.xml" "" "" TimerArmed [] None [] true))
  = false.
Proof.
  exact (proj1 (late_close_removes_script sample_join sample_config "job-1"
                  example_commands [] [StderrData "killed"] None _
                  eq_refl eq_refl eq_refl eq_refl)).
Defined.

Lemma listAssets_throws_on_a_file_witness :
  exists e, listAssets sample_join sample_config file_fs "rulesets" = Throw e.
Proof.
  apply (listAssets_throws_on_a_file sample_join sample_config file_fs
           "rulesets" "Rulesets"); [reflexivity | discriminate | reflexivity].
Defined.

Lemma asset_types_do_not_overlap_witness : "templates" = "templates".
Proof.
  apply (asset_types_do_not_overlap "templates" "templates" "Report.XLSX");
    reflexivity.
Defined.

Lemma waitUntilIdle_without_time_witness :
  waitUntilIdle always_busy (Some (-1)) (Some 100) 42 1
  = Some (mkOutcome (Throw (idle_timeout_error (-1))) 0 [] 42).
Proof.
  apply (waitUntilIdle_without_time always_busy (-1) 100 42 0). lia.
Defined.

Lemma waitUntilIdle_bounds_polls_witness :
  (3 = 0)%nat \/ (Z.of_nat 3 - 1) * timer_delay 100 < 300.
Proof.
  exact (waitUntilIdle_bounds_polls always_busy 300 100 0 10
           (mkOutcome (Throw (idle_timeout_error 300)) 3 [100; 100; 100] 318)
           eq_refl).
Defined.

Lemma waitUntilIdle_times_out_within_one_interval_witness :
  exists n o,
    (forall fuel, (n < fuel)%nat ->
       waitUntilIdle busy_at_once (Some 250) (Some 100) 0 fuel = Some o)
    /\ wait_result o = Throw (idle_timeout_error 250)
    /\ 250 <= finished_at o - 0 < 250 + 100.
Proof.
  apply (waitUntilIdle_times_out_within_one_interval busy_at_once 250 100 0).
  - intros i. split; reflexivity.
  - intros k. reflexivity.
  - lia.
  - lia.
Defined.

Lemma request_returns_only_when_ok_witness :
  exists r : RestClient.http_response nat,
    RestClient.Done
      (RestClient.mkResponse true 200 (Some "application/json; charset=utf-8")
         (RestClient.Done "7") (RestClient.Done 7%nat))
    = RestClient.Done r
    /\ RestClient.resp_ok r = true
    /\ RestClient.resp_json r = RestClient.Done 7%nat
       /\ exists ct, RestClient.resp_content_type r = Some ct
                     /\ ct <> ""
                     /\ RestClient.includes ct "application/json" = true.
Proof.
  exact (request_returns_only_when_ok
           (RestClient.Done
              (RestClient.mkResponse true 200
                 (Some "application/json; charset=utf-8")
                 (RestClient.Done "7") (RestClient.Done 7%nat)))
           (RestClient.Json 7%nat) eq_refl).
Defined.

Lemma waitUntilIdle_first_reply_witness :
  waitUntilIdle (world_of refusing_fetches) (Some 1000) (Some 100) 0 1
  = Some (mkOutcome (Throw RestClient.not_running_error) 1 [] 3).
Proof.
  refine (proj1 (proj2 (waitUntilIdle_first_reply refusing_fetches 1000 100
                          0 0 _ _ _ _ eq_refl)) _ eq_refl).
  lia.
Defined.

Lemma oldest_session_gets_every_request_witness :
  post_messages sample_config
    (apply_ops [Connect 2%nat 2%nat; Disconnect 2%nat; Connect 3%nat 3%nat] [(1%nat, 1%nat)])
    (bearer "secret")
  = Delivered 1%nat.
Proof.
  exact (oldest_session_gets_every_request sample_config [(1%nat, 1%nat)]
           1%nat [Connect 2%nat 2%nat; Disconnect 2%nat; Connect 3%nat 3%nat] (bearer "secret")
           eq_refl eq_refl eq_refl).
Defined.


Lemma check_model_script_is_clean_witness :
  generateXml
    (check_model_commands (JStr "a<b>.ifc") [JStr "r&d.cset"] None
       (JStr "out.bcf") (JStr ""))
  = Return
      (spec_header ++ spec_newline ++ "<autorun>" ++ spec_newline
       ++ "  <openmodel file=" ++ spec_quote ++ "a&lt;b&gt;.ifc"
       ++ spec_quote ++ " />" ++ spec_newline
       ++ "  <openruleset file=" ++ spec_quote ++ "r&amp;d.cset"
       ++ spec_quote ++ " />" ++ spec_newline
       ++ "  <check />" ++ spec_newline
       ++ "  <bcfreport file=" ++ spec_quote ++ "out.bcf" ++ spec_quote
       ++ " version=" ++ spec_quote ++ "2.1" ++ spec_quote ++ " />"
       ++ spec_newline
       ++ "  <exit />" ++ spec_newline ++ "</autorun>").
Proof.
  exact (proj1 (check_model_script_is_clean "a<b>.ifc" ["r&d.cset"] None
                  (Some "out.bcf") (Some ""))).
Defined.

Lemma quantity_takeoff_script_is_clean_witness :
  generateXml
    (quantity_takeoff_commands (JStr "m.smc") (JStr "q.ito") (JStr "o.xlsx")
       JUndefined (JStr "") (JStr "Walls & 'doors'"))
  = Return
      (spec_header ++ spec_newline ++ "<autorun>" ++ spec_newline
       ++ "  <openmodel file=" ++ spec_quote ++ "m.smc" ++ spec_quote
       ++ " />" ++ spec_newline
       ++ "  <openito file=" ++ spec_quote ++ "q.ito" ++ spec_quote
       ++ " />" ++ spec_newline
       ++ "  <takeoff />" ++ spec_newline
       ++ "  <itoreport file=" ++ spec_quote ++ "o.xlsx" ++ spec_quote
       ++ " title=" ++ spec_quote ++ "Walls &amp; &apos;doors&apos;"
       ++ spec_quote ++ " />" ++ spec_newline
       ++ "  <exit />" ++ spec_newline ++ "</autorun>").
Proof.
  exact (proj1 (quantity_takeoff_script_is_clean "m.smc" "q.ito" "o.xlsx"
                  None (Some "") (Some "Walls & 'doors'"))).
Defined.

Lemma create_model_script_is_clean_witness :
  generateXml (create_model_commands [] (JStr "all.smc") None)
  = Return
      (spec_header ++ spec_newline ++ "<autorun>" ++ spec_newline
       ++ "  <savemodel file=" ++ spec_quote ++ "all.smc" ++ spec_quote
       ++ " />" ++ spec_newline
       ++ "  <exit />" ++ spec_newline ++ "</autorun>").
Proof.
  exact (proj1 (create_model_script_is_clean [] "all.smc" None)).
Defined.

Lemma update_model_script_is_clean_witness :
  generateXml
    (update_model_commands (JStr "in.smc") [JStr "a.ifc"] (JStr ""))
  = Return
      (spec_header ++ spec_newline ++ "<autorun>" ++ spec_newline
       ++ "  <openmodel file=" ++ spec_quote ++ "in.smc" ++ spec_quote
       ++ " />" ++ spec_newline
       ++ "  <updatemodel file=" ++ spec_quote ++ "a.ifc" ++ spec_quote
       ++ " />" ++ spec_newline
       ++ "  <savemodel file=" ++ spec_quote ++ "in.smc" ++ spec_quote
       ++ " />" ++ spec_newline
       ++ "  <exit />" ++ spec_newline ++ "</autorun>").
Proof.
  exact (proj1 (update_model_script_is_clean "in.smc" ["a.ifc"]
                  (Some ""))).
Defined.
